(** * glutwins/scp: the SCP sink-protocol encoder, the session manager and
      the retry loops of [scp.go] and [helper.go], embedded and verified.

    Go values are modelled as follows.  [int], [int64] and [time.Duration]
    are [Z] with the 64-bit wrap-around written out ([wrap64]); [os.FileMode]
    is an unsigned [Z]; Go strings are [string]; byte slices and the bytes
    that travel through readers, buffers and pipes are [list byte]; a Go
    [error] is [option error] with [None] for [nil].  Code that talks to the
    outside (ssh, the file system, gzip, sleeping) is a state-passing function
    over a [World] supplied by a [Platform]. *)

From Stdlib Require Import ZArith List String Ascii Bool Lia.
From Stdlib.Strings Require Import Byte.
Import ListNotations.
Local Open Scope string_scope.
Local Open Scope list_scope.
Local Open Scope Z_scope.

(** ** Machine integers *)

Definition wrap64 (z : Z) : Z := (z + 2 ^ 63) mod 2 ^ 64 - 2 ^ 63.
Definition int64_range (z : Z) : Prop := - 2 ^ 63 <= z < 2 ^ 63.

(** ** Errors *)

(** [io.EOF] and [io.ErrClosedPipe] are distinguished values compared by
    identity; [ErrTimes] is the error type of helper.go, whose [err] field may
    hold [nil]; every other error is identified by its message. *)
#[warnings="-register-all"] Inductive error : Type :=
| io_EOF
| io_ErrClosedPipe
| errorString (msg : string)
| ErrTimes (err : option error) (times : Z).

(** ** Package fmt: the two integer verbs the encoder uses *)

Module fmt.

Definition digit (d : Z) : ascii := ascii_of_N (48 + Z.to_N d).

(** [fmtInteger]: digits are produced least significant first and stored
    right to left in the buffer, [for u >= base { buf[i] = digit(u % base);
    u /= base }; buf[i] = digit(u)].  The buffer of the library holds 68
    bytes, enough for any 64-bit value; [fuel] is that bound. *)
Fixpoint fmt_loop (fuel : nat) (base u : Z) (buf : string) : string :=
  match fuel with
  | O => String (digit u) buf
  | S fuel' =>
      if base <=? u
      then fmt_loop fuel' base (u / base) (String (digit (u mod base)) buf)
      else String (digit u) buf
  end.

Definition fmt_unsigned (base u : Z) : string := fmt_loop 64 base u "".

(** [%d] on an [int64]. *)
Definition fmt_d (v : Z) : string :=
  if v <? 0 then String "-" (fmt_unsigned 10 (- v)) else fmt_unsigned 10 v.

(** [%#o] on an unsigned value: the octal digits, with a ["0"] put in front
    unless the first digit already is one. *)
Definition fmt_sharp_o (u : Z) : string :=
  match fmt_unsigned 8 u with
  | String "0" _ as s => s
  | s => String "0" s
  end.

(** Reading digit strings back, used to state what a rendered number
    denotes. *)
Definition digit_val (base : Z) (c : ascii) : option Z :=
  let n := Z.of_N (N_of_ascii c) in
  if (48 <=? n) && (n <? 48 + base) then Some (n - 48) else None.

Fixpoint parse_digits (base : Z) (s : string) (acc : Z) : option Z :=
  match s with
  | EmptyString => Some acc
  | String c s' =>
      match digit_val base c with
      | Some d => parse_digits base s' (acc * base + d)
      | None => None
      end
  end.

Definition parse_unsigned (base : Z) (s : string) : option Z :=
  match s with
  | EmptyString => None
  | _ => parse_digits base s 0
  end.

End fmt.

(** ** Package io: readers, pipes and [io.Copy] *)

Module io.

(** One call of [Read]: the bytes placed in the buffer and the error
    returned with them.  The contract of [io.Reader] allows a reader to
    return the last bytes together with [io.EOF]. *)
Definition read_result : Type := list byte * option error.

(** A reader is the sequence of results its successive [Read] calls give;
    once the sequence is used up every call gives [(0, io.EOF)]. *)
Definition Reader : Type := list read_result.

Definition Read (r : Reader) : read_result * Reader :=
  match r with
  | [] => (([], Some io_EOF), [])
  | res :: r' => (res, r')
  end.

(** What the reader holds: every byte it delivers up to and including the
    call that reports an error. *)
Fixpoint contents_of (r : Reader) : list byte :=
  match r with
  | [] => []
  | (b, None) :: r' => b ++ contents_of r'
  | (b, Some _) :: _ => b
  end.

(** The chunks that came without an error, before the first call that
    reported one. *)
Fixpoint chunks (r : Reader) : list (list byte) :=
  match r with
  | (b, None) :: r' => b :: chunks r'
  | _ => []
  end.

(** A reader that never returns bytes together with an error. *)
Fixpoint plain (r : Reader) : bool :=
  match r with
  | [] => true
  | (_, None) :: r' => plain r'
  | ([], Some _) :: _ => true
  | (_ :: _, Some _) :: _ => false
  end.

(** The write end of a session's standard input.  [room] is the number of
    bytes the other side still takes before the pipe breaks; [None] is a pipe
    that never breaks. *)
Record Pipe : Type := mkPipe { sent : list byte; room : option nat; closed : bool }.

Definition new_pipe (room : option nat) : Pipe := mkPipe [] room false.

Definition Write (p : Pipe) (b : list byte) : Pipe * option error :=
  if closed p then (p, Some io_ErrClosedPipe)
  else
    match room p with
    | None => (mkPipe (sent p ++ b) None false, None)
    | Some n =>
        if (List.length b <=? n)%nat
        then (mkPipe (sent p ++ b) (Some (n - List.length b)%nat) false, None)
        else (mkPipe (sent p ++ firstn n b) (Some O) false, Some io_ErrClosedPipe)
    end.

Definition Close (p : Pipe) : Pipe := mkPipe (sent p) (room p) true.

(** A [bytes.Buffer] read from its start: one chunk with everything in it,
    then [io.EOF]. *)
Definition Buffer (b : list byte) : Reader :=
  match b with
  | [] => []
  | _ => [(b, None)]
  end.

(** [io.Copy(dst, src)]: read until an error, writing every non-empty chunk
    before looking at the error that came with it; a failed write stops the
    copy.  Returns the pipe, the rest of the reader and the error ([io.EOF]
    is not an error of the copy). *)
Fixpoint Copy (dst : Pipe) (src : Reader) : Pipe * Reader * option error :=
  match src with
  | [] => (dst, [], None)
  | (b, er) :: src' =>
      let '(dst', ew) :=
        match b with
        | [] => (dst, None)
        | _ => Write dst b
        end in
      match ew with
      | Some e => (dst', src', Some e)
      | None =>
          match er with
          | Some io_EOF => (dst', src', None)
          | Some e => (dst', src', Some e)
          | None => Copy dst' src'
          end
      end
  end.

End io.

(** ** Package path/filepath *)

Module filepath.

Definition is_sep (c : ascii) : bool := Ascii.eqb c "/".

Fixpoint drop_seps (l : list ascii) : list ascii :=
  match l with
  | c :: l' => if is_sep c then drop_seps l' else l
  | [] => []
  end.

Fixpoint take_elem (l : list ascii) : list ascii :=
  match l with
  | c :: l' => if is_sep c then [] else c :: take_elem l'
  | [] => []
  end.

(** [filepath.Base] on a Unix target: strip the trailing separators, keep what
    follows the last separator; the empty path gives ["."], a path made of
    separators only gives ["/"].  The scans run from the end of the path, so
    the model works on the reversed path. *)
Definition Base (path : string) : string :=
  if String.eqb path "" then "."
  else
    match take_elem (drop_seps (rev (list_ascii_of_string path))) with
    | [] => "/"
    | elem => string_of_list_ascii (rev elem)
    end.

End filepath.

(** ** The outside world *)

Definition Signer : Type := list byte.

Inductive AuthMethod : Type :=
| PublicKeys (key : Signer)
| Password (secret : string).

(** [ssh.ClientConfig], the fields [Dial] sets.  The callback gets the host
    name, the remote address and the host key and answers [None] to accept
    the key. *)
Record ClientConfig : Type := mkClientConfig {
  Auth : list AuthMethod;
  User : string;
  HostKeyCallback : string -> string -> list byte -> option error
}.

Record FileInfo : Type := mkFileInfo { Size : Z; Mode : Z }.

(** What the program needs from ssh, the file system, gzip and the clock.
    Every call that can fail returns the error or the value, as the Go
    functions return [(value, err)] with one of the two set. *)
Class Platform : Type := {
  World : Type;
  Client : Type;
  Session : Type;
  File : Type;
  GzWriter : Type;
  filepath_Dir : string -> string;
  ioutil_ReadFile : string -> World -> (error + list byte) * World;
  ssh_ParsePrivateKey : list byte -> error + Signer;
  ssh_Dial : string -> string -> ClientConfig -> World -> (error + Client) * World;
  Client_NewSession : Client -> World -> (error + Session) * World;
  Client_Close : Client -> World -> World;
  Session_stdin_room : Session -> World -> option nat;
  Session_Run : Session -> string -> list byte -> World -> option error * World;
  Session_Close : Session -> World -> World;
  os_Open : string -> World -> (error + File) * World;
  File_Stat : File -> World -> (error + FileInfo) * World;
  File_Reader : File -> io.Reader;
  File_Close : File -> World -> World;
  gzip_NewWriter : GzWriter;
  gzip_Write : GzWriter -> list byte -> GzWriter;
  gzip_Flush : GzWriter -> GzWriter;
  gzip_Close : GzWriter -> GzWriter;
  gzip_Bytes : GzWriter -> list byte;
  time_Sleep : Z -> World -> World
}.

Definition bytes_of (s : string) : list byte := list_byte_of_string s.

Definition os_ModePerm : Z := 511.
Definition time_Second : Z := 1000000000.
Definition time_Minute : Z := 60 * time_Second.

Section Program.

Context {P : Platform}.

(** *** Calls to the outside, with the trace of what was asked *)

Inductive event : Type :=
| EvDial (network addr : string) (config : ClientConfig)
| EvNewSession (c : Client)
| EvClientClose (c : Client)
| EvRun (s : Session) (cmd : string) (stdin : list byte)
| EvSessionClose (s : Session)
| EvOpen (path : string).

Record Sys : Type := mkSys { world : World; trace : list event }.

(** The remote commands in a trace, each with the bytes it was fed. *)
Fixpoint commands_run (tr : list event) : list (string * list byte) :=
  match tr with
  | [] => []
  | EvRun _ cmd stdin :: tr' => (cmd, stdin) :: commands_run tr'
  | _ :: tr' => commands_run tr'
  end.

Definition M (A : Type) : Type := Sys -> A * Sys.

Definition ret {A : Type} (a : A) : M A := fun st => (a, st).

Definition bind {A B : Type} (m : M A) (k : A -> M B) : M B :=
  fun st => let (a, st') := m st in k a st'.

Definition call {A : Type} (ev : event) (f : World -> A * World) : M A :=
  fun st => let (a, w) := f (world st) in (a, mkSys w (trace st ++ [ev])).

Definition call_ {A : Type} (f : World -> A * World) : M A :=
  fun st => let (a, w) := f (world st) in (a, mkSys w (trace st)).

Definition exec (ev : event) (f : World -> World) : M unit :=
  fun st => (tt, mkSys (f (world st)) (trace st ++ [ev])).

End Program.

Notation "x <- m ;; k" := (bind m (fun x => k))
  (at level 61, m at next level, right associativity).
Notation "' pat <- m ;; k" := (bind m (fun x => match x with pat => k end))
  (at level 61, pat pattern, m at next level, right associativity).
Notation "m ;;; k" := (bind m (fun _ => k))
  (at level 61, right associativity).

(** ** scp.go *)

Module scp.
Section WithPlatform.

Context {P : Platform}.

Definition LF : string := String (ascii_of_nat 10) "".

(** [fmt.Sprintf("C%#o %d %s\n", mode, size, fileName)]; [os.FileMode] has a
    [String] method, which [%o] does not use. *)
Definition control_line (mode size : Z) (fileName : string) : string :=
  ("C" ++ fmt.fmt_sharp_o mode ++ " " ++ fmt.fmt_d size ++ " " ++ fileName ++ LF)%string.

(** The goroutine of [copy].  The errors of [StdinPipe], of the two prints
    and of [io.Copy] are dropped by the source; the deferred [w.Close()]
    runs last.  The model is of a session whose [StdinPipe] gives a pipe,
    as a session that was not started does (the ones [newSession] hands out
    are such); on a session whose [StdinPipe] fails the writer is [nil] and
    the goroutine of the source panics, which the model does not cover. *)
Definition copy_writer (size mode : Z) (fileName : string) (contents : io.Reader)
    (w : io.Pipe) : io.Pipe * io.Reader :=
  let (w, _) := io.Write w (bytes_of (control_line mode size fileName)) in
  let '(w, contents, _) := io.Copy w contents in
  let (w, _) := io.Write w [x00] in
  (io.Close w, contents).

(** [copy]: the remote command reads what the goroutine wrote to its
    standard input; the model lets the goroutine run to its end and hands the
    bytes it sent to [Run].  The session is closed on the way out. *)
Definition copy (size mode : Z) (fileName : string) (contents : io.Reader)
    (destination : string) (session : Session) (flags : string)
    : M (option error * io.Reader) :=
  fun st =>
    let w := io.new_pipe (Session_stdin_room session (world st)) in
    let (w, contents) := copy_writer size mode fileName contents w in
    let cmd := ("scp " ++ flags ++ " -t " ++ destination)%string in
    (err <- call (EvRun session cmd (io.sent w)) (Session_Run session cmd (io.sent w)) ;;
     exec (EvSessionClose session) (Session_Close session) ;;;
     ret (err, contents)) st.

Definition Copy (size mode : Z) (fileName : string) (contents : io.Reader)
    (destination : string) (session : Session) : M (option error * io.Reader) :=
  copy size mode fileName contents destination session "".

(** [CopyPath]: [s.Mode().Perm()] keeps the low nine bits of the mode. *)
Definition CopyPath (filePath destinationPath : string) (session : Session)
    : M (option error) :=
  f <- call (EvOpen filePath) (os_Open filePath) ;;
  match f with
  | inl err => ret (Some err)
  | inr f =>
      s <- call_ (File_Stat f) ;;
      match s with
      | inl err => call_ (fun w => (tt, File_Close f w)) ;;; ret (Some err)
      | inr s =>
          '(err, _) <- Copy (Size s) (Z.land (Mode s) os_ModePerm)
                            (filepath.Base filePath) (File_Reader f)
                            destinationPath session ;;
          call_ (fun w => (tt, File_Close f w)) ;;;
          ret err
      end
  end.

End WithPlatform.
End scp.

(** ** helper.go *)

Module helper.

(** The [Error] method.  For [ErrTimes] it formats [err.times] and
    [err.err.Error()]; calling [Error] on the [nil] held in [err] panics, and
    [None] stands for that panic. *)
Fixpoint Error (e : error) : option string :=
  match e with
  | io_EOF => Some "EOF"
  | io_ErrClosedPipe => Some "io: read/write on closed pipe"
  | errorString msg => Some msg
  | ErrTimes inner times =>
      match inner with
      | Some inner =>
          match Error inner with
          | Some msg =>
              Some ("copy fail after try " ++ fmt.fmt_d times ++ " times: " ++ msg)%string
          | None => None
          end
      | None => None
      end
  end.

Record Dialer : Type := mkDialer {
  SSHUser : string;
  SSHFile : string;
  SSHPass : string;
  SSHAddr : string
}.

(** *** The retry loops

    [MustCopy] and [TryCopy] are loops around [s.Copy(r, size, dstfile)].
    They are written here over any state and any attempt function, and
    instantiated with [Copy] below.  A loop that may not end takes [fuel],
    the number of iterations it is followed for. *)

Inductive retry_event : Type :=
| Slept (d : Z)
| Attempted (result : option error).

Inductive outcome (A : Type) : Type :=
| Returned (a : A)
| StillRunning.

Arguments Returned {A} a.
Arguments StillRunning {A}.

Section Retry.

Variable St : Type.
Variable attempt : St -> option error * St.
Variable Sleep : Z -> St -> St.

(** The head of an iteration: [time.Sleep] or nothing.  [None] is no call
    of [Sleep] at all. *)
Definition MustCopy_pause (retryTimes : Z) : option Z :=
  if retryTimes >? 10 then Some time_Minute
  else if retryTimes >? 0 then Some (wrap64 (retryTimes * time_Second))
  else None.

Definition TryCopy_pause (retryTimes : Z) : option Z :=
  if retryTimes >? 0 then Some (wrap64 (retryTimes * time_Second)) else None.

Definition pause (d : option Z) (st : St) : list retry_event * St :=
  match d with
  | Some d => ([Slept d], Sleep d st)
  | None => ([], st)
  end.

Definition pause_length (d : option Z) : Z :=
  match d with
  | Some d => d
  | None => 0
  end.

Fixpoint MustCopy_loop (fuel : nat) (retryTimes : Z) (st : St)
    : list retry_event * outcome unit * St :=
  match fuel with
  | O => ([], StillRunning, st)
  | S fuel' =>
      let (slept, st) := pause (MustCopy_pause retryTimes) st in
      let retryTimes := wrap64 (retryTimes + 1) in
      let (err, st) := attempt st in
      match err with
      | None => (slept ++ [Attempted None], Returned tt, st)
      | Some _ =>
          let '(evs, res, st) := MustCopy_loop fuel' retryTimes st in
          (slept ++ Attempted err :: evs, res, st)
      end
  end.

(** The [err] of the enclosing scope is declared before the loop; the
    [err] that receives the result of the attempt is a new variable of the
    [if] statement, so the outer one is the same in every iteration. *)
Fixpoint TryCopy_loop (fuel : nat) (trys retryTimes : Z) (err : option error)
    (st : St) : list retry_event * outcome (option error) * St :=
  match fuel with
  | O => ([], StillRunning, st)
  | S fuel' =>
      if retryTimes >? trys
      then ([], Returned (Some (ErrTimes err retryTimes)), st)
      else
        let (slept, st) := pause (TryCopy_pause retryTimes) st in
        let retryTimes := wrap64 (retryTimes + 1) in
        let (err', st) := attempt st in
        match err' with
        | None => (slept ++ [Attempted None], Returned None, st)
        | Some _ =>
            let '(evs, res, st) := TryCopy_loop fuel' trys retryTimes err st in
            (slept ++ Attempted err' :: evs, res, st)
        end
  end.

End Retry.

Arguments pause {St} Sleep d st.
Arguments MustCopy_loop {St} attempt Sleep fuel retryTimes st.
Arguments TryCopy_loop {St} attempt Sleep fuel trys retryTimes err st.

(** Reading a run of a loop: the number of attempts made, and the time slept
    between attempt [n - 1] and attempt [n] (attempts are counted from 1). *)
Fixpoint attempts (evs : list retry_event) : nat :=
  match evs with
  | [] => O
  | Slept _ :: evs' => attempts evs'
  | Attempted _ :: evs' => S (attempts evs')
  end.

Fixpoint delay_before_from (n : nat) (acc : Z) (evs : list retry_event) : option Z :=
  match evs with
  | [] => None
  | Slept d :: evs' => delay_before_from n (acc + d) evs'
  | Attempted _ :: evs' =>
      match n with
      | O => None
      | S O => Some acc
      | S n' => delay_before_from n' 0 evs'
      end
  end.

Definition delay_before (n : nat) (evs : list retry_event) : option Z :=
  delay_before_from n 0 evs.

(** The result of the last attempt of a run ([acc] if there was none). *)
Fixpoint last_error (evs : list retry_event) (acc : option error) : option error :=
  match evs with
  | [] => acc
  | Slept _ :: evs' => last_error evs' acc
  | Attempted r :: evs' => last_error evs' r
  end.

Definition always_fails {St : Type} (attempt : St -> option error * St) : Prop :=
  forall st, fst (attempt st) <> None.

Definition is_success (ev : retry_event) : bool :=
  match ev with
  | Attempted None => true
  | _ => false
  end.

Definition events {A St : Type} (run : list retry_event * outcome A * St)
    : list retry_event := fst (fst run).

Definition result {A St : Type} (run : list retry_event * outcome A * St)
    : outcome A := snd (fst run).

Section WithPlatform.

Context {P : Platform}.

(** [lock] is left out: the model runs one call at a time. *)
Record scpHelperDelegate : Type := mkHelper {
  dialer : Dialer;
  client : option Client;
  flags : string;
  gzip : bool
}.

Definition with_client (s : scpHelperDelegate) (c : option Client) : scpHelperDelegate :=
  mkHelper (dialer s) c (flags s) (gzip s).

Definition NewHelper (d : Dialer) : scpHelperDelegate := mkHelper d None "" false.

Definition SetLimitKB (s : scpHelperDelegate) (kbs : Z) : scpHelperDelegate :=
  mkHelper (dialer s) (client s) ("-l " ++ fmt.fmt_d (wrap64 (kbs * 8)))%string (gzip s).

Definition SetGzipEnable (s : scpHelperDelegate) (enable : bool) : scpHelperDelegate :=
  mkHelper (dialer s) (client s) (flags s) enable.

(** [Dial], first half: choosing the authentication method. *)
Definition Dial_auth (d : Dialer) : M (error + AuthMethod) :=
  if negb (String.eqb (SSHFile d) "") then
    b <- call_ (ioutil_ReadFile (SSHFile d)) ;;
    match b with
    | inl err => ret (inl err)
    | inr b =>
        match ssh_ParsePrivateKey b with
        | inl err => ret (inl err)
        | inr key => ret (inr (PublicKeys key))
        end
    end
  else ret (inr (Password (SSHPass d))).

Definition Dial_config (d : Dialer) (authm : AuthMethod) : ClientConfig :=
  mkClientConfig [authm] (SSHUser d) (fun hostname remote key => None).

Definition Dial (d : Dialer) : M (error + Client) :=
  a <- Dial_auth d ;;
  match a with
  | inl err => ret (inl err)
  | inr authm =>
      let config := Dial_config d authm in
      call (EvDial "tcp" (SSHAddr d) config) (ssh_Dial "tcp" (SSHAddr d) config)
  end.

(** What the events of a call say about host keys: a dial whose callback
    accepts whatever key whatever host presents. *)
Definition accepts_every_host_key (ev : event) : Prop :=
  match ev with
  | EvDial _ _ config =>
      forall hostname remote key, HostKeyCallback config hostname remote key = None
  | _ => True
  end.

(** The first step of [newSession]: [if s.client == nil] dial, else go on
    with the cached client. *)
Definition cached_or_dial (s : scpHelperDelegate) : M (error + Client) :=
  match client s with
  | None => Dial (dialer s)
  | Some c => ret (inr c)
  end.

(** [newSession].  [s.client, err = s.dialer.Dial()] stores what [Dial]
    returned, which is [nil] when it failed. *)
Definition newSession (s : scpHelperDelegate) : M ((error + Session) * scpHelperDelegate) :=
  first <- cached_or_dial s ;;
  match first with
  | inl err => ret (inl err, with_client s None)
  | inr c =>
      sess <- call (EvNewSession c) (Client_NewSession c) ;;
      match sess with
      | inr sess => ret (inr sess, with_client s (Some c))
      | inl _ =>
          exec (EvClientClose c) (Client_Close c) ;;;
          again <- Dial (dialer s) ;;
          match again with
          | inl err => ret (inl err, with_client s None)
          | inr c' =>
              sess <- call (EvNewSession c') (Client_NewSession c') ;;
              ret (sess, with_client s (Some c'))
          end
      end
  end.

(** The loop of the gzip branch of [Copy]: [io.EOF] ends it before the bytes
    that came with it are looked at; any other error is returned; a chunk
    that came without error is written to the gzip writer (whose [Write] on
    a memory buffer does not fail). *)
Fixpoint gzip_loop (w : GzWriter) (r : io.Reader) : (error + GzWriter) * io.Reader :=
  match r with
  | [] => (inr w, [])
  | (_, Some io_EOF) :: r' => (inr w, r')
  | (_, Some err) :: r' => (inl err, r')
  | (b, None) :: r' => gzip_loop (gzip_Write w b) r'
  end.

(** The body of [if s.gzip { ... }]: the new [name], [r] and [size], and what
    is left of the reader that was passed in.  The writer is flushed
    ([w.Flush()]); the source does not call [w.Close()]. *)
Definition Copy_gzip (name : string) (r : io.Reader)
    : (error + string * io.Reader * Z) * io.Reader :=
  let name := (name ++ ".gz")%string in
  let w := gzip_NewWriter in
  match gzip_loop w r with
  | (inl err, r') => (inl err, r')
  | (inr w, r') =>
      let w := gzip_Flush w in
      let cb := gzip_Bytes w in
      (inr (name, io.Buffer cb, Z.of_nat (List.length cb)), r')
  end.

Definition Copy (s : scpHelperDelegate) (r : io.Reader) (size : Z) (dstfile : string)
    : M (option error * scpHelperDelegate * io.Reader) :=
  '(sess, s) <- newSession s ;;
  match sess with
  | inl err => ret (Some err, s, r)
  | inr session =>
      let name := filepath.Base dstfile in
      let path := filepath_Dir dstfile in
      if gzip s then
        match Copy_gzip name r with
        | (inl err, r') =>
            exec (EvSessionClose session) (Session_Close session) ;;;
            ret (Some err, s, r')
        | (inr (name, cb, size), r') =>
            '(err, _) <- scp.copy size os_ModePerm name cb path session (flags s) ;;
            exec (EvSessionClose session) (Session_Close session) ;;;
            ret (err, s, r')
        end
      else
        '(err, r') <- scp.copy size os_ModePerm name r path session (flags s) ;;
        exec (EvSessionClose session) (Session_Close session) ;;;
        ret (err, s, r')
  end.

(** The state the loops run over: the helper, the reader (the same one in
    every attempt, so what one attempt has read is gone for the next) and
    the world. *)
Definition loop_state : Type := scpHelperDelegate * io.Reader * Sys.

Definition Copy_attempt (size : Z) (dstfile : string) (st : loop_state)
    : option error * loop_state :=
  let '(s, r, sys) := st in
  let '(err, s, r, sys) := Copy s r size dstfile sys in
  (err, (s, r, sys)).

Definition Sleep (d : Z) (st : loop_state) : loop_state :=
  let '(s, r, sys) := st in
  (s, r, mkSys (time_Sleep d (world sys)) (trace sys)).

Definition MustCopy (fuel : nat) (s : scpHelperDelegate) (r : io.Reader) (size : Z)
    (dstfile : string) (sys : Sys) : list retry_event * outcome unit * loop_state :=
  MustCopy_loop (Copy_attempt size dstfile) Sleep fuel 0 (s, r, sys).

Definition TryCopy (fuel : nat) (s : scpHelperDelegate) (r : io.Reader) (size : Z)
    (dstfile : string) (trys : Z) (sys : Sys)
    : list retry_event * outcome (option error) * loop_state :=
  TryCopy_loop (Copy_attempt size dstfile) Sleep fuel trys 0 None (s, r, sys).

Definition openFile (filename : string) : M (error + File * Z) :=
  fd <- call (EvOpen filename) (os_Open filename) ;;
  match fd with
  | inl err => ret (inl err)
  | inr fd =>
      stat <- call_ (File_Stat fd) ;;
      match stat with
      | inl err => ret (inl err)
      | inr stat => ret (inr (fd, Size stat))
      end
  end.

Definition CopyPath (s : scpHelperDelegate) (srcfile dstfile : string)
    : M (option error * scpHelperDelegate) :=
  f <- openFile srcfile ;;
  match f with
  | inr (fd, size) =>
      '(err, s, _) <- Copy s (File_Reader fd) size dstfile ;;
      ret (err, s)
  | inl err => ret (Some err, s)
  end.

(** How a call of [MustCopyPath] or [TryCopyPath] ends: with a panic, or with
    the events of the loop it ran (none if it returned before the loop), what
    it returned and the helper it leaves. *)
Inductive path_result (A : Type) : Type :=
| Panicked (value : error)
| Ran (evs : list retry_event) (res : outcome A) (s : scpHelperDelegate).

Arguments Panicked {A} value.
Arguments Ran {A} evs res s.

Definition MustCopyPath (fuel : nat) (s : scpHelperDelegate) (srcfile dstfile : string)
    : M (path_result unit) :=
  f <- openFile srcfile ;;
  match f with
  | inl err => ret (Panicked err)
  | inr (fd, size) =>
      fun sys =>
        let '(evs, res, (s, _, sys)) := MustCopy fuel s (File_Reader fd) size dstfile sys in
        (Ran evs res s, sys)
  end.

Definition TryCopyPath (fuel : nat) (s : scpHelperDelegate) (srcfile dstfile : string)
    (trys : Z) : M (path_result (option error)) :=
  f <- openFile srcfile ;;
  match f with
  | inl err => ret (Ran [] (Returned (Some err)) s)
  | inr (fd, size) =>
      fun sys =>
        let '(evs, res, (s, _, sys)) := TryCopy fuel s (File_Reader fd) size dstfile trys sys in
        (Ran evs res s, sys)
  end.

End WithPlatform.

Arguments Panicked {P A} value.
Arguments Ran {P A} evs res s.

End helper.

(** ** Reading readers, pipes, runs and traces *)

Module observe.

(** The error that ends the reading: the first one a call reports, [io.EOF]
    when the script runs out. *)
Fixpoint first_error (r : io.Reader) : error :=
  match r with
  | [] => io_EOF
  | (_, Some e) :: _ => e
  | (_, None) :: r' => first_error r'
  end.

Definition is_EOF (e : error) : bool :=
  match e with
  | io_EOF => true
  | _ => false
  end.

(** A reader none of whose calls reports an error before the script runs
    out. *)
Fixpoint error_free (r : io.Reader) : bool :=
  match r with
  | [] => true
  | (_, None) :: r' => error_free r'
  | (_, Some _) :: _ => false
  end.

(** What a pipe with [room] lets through of the bytes written to it. *)
Definition take_room (room : option nat) (l : list byte) : list byte :=
  match room with
  | None => l
  | Some n => firstn n l
  end.

(** The time a run of a loop slept, all pauses together. *)
Fixpoint total_slept (evs : list helper.retry_event) : Z :=
  match evs with
  | [] => 0
  | helper.Slept d :: evs' => d + total_slept evs'
  | helper.Attempted _ :: evs' => total_slept evs'
  end.

Definition no_space (s : string) : Prop :=
  forall c, In c (list_ascii_of_string s) -> c <> " "%char.

(** What the attempts of a run returned, in order. *)
Fixpoint results (evs : list helper.retry_event) : list (option error) :=
  match evs with
  | [] => []
  | helper.Slept _ :: evs' => results evs'
  | helper.Attempted r :: evs' => r :: results evs'
  end.

Section Attempts.

Variable St : Type.
Variable attempt : St -> option error * St.
Variable Sleep : Z -> St -> St.

(** The state in which [MustCopy] makes attempt number [n] (counted from 0)
    when it started with [retryTimes] in [st] and the attempts before [n]
    failed: it sleeps as [retryTimes] says, and for [n > 0] makes an attempt
    there and goes on from the state that attempt left, with [retryTimes]
    one more. *)
Fixpoint MustCopy_state (n : nat) (retryTimes : Z) (st : St) : St :=
  let st1 := snd (helper.pause Sleep (helper.MustCopy_pause retryTimes) st) in
  match n with
  | O => st1
  | S n' => MustCopy_state n' (wrap64 (retryTimes + 1)) (snd (attempt st1))
  end.

End Attempts.

Arguments MustCopy_state {St} attempt Sleep n retryTimes st.

Section WithPlatform.

Context {P : Platform}.

Definition is_dial (ev : event) : bool :=
  match ev with
  | EvDial _ _ _ => true
  | _ => false
  end.

Definition is_new_session (ev : event) : bool :=
  match ev with
  | EvNewSession _ => true
  | _ => false
  end.

Definition is_client_close (ev : event) : bool :=
  match ev with
  | EvClientClose _ => true
  | _ => false
  end.

(** Events on a connection, as opposed to events on a session or a file. *)
Definition on_connection (ev : event) : bool :=
  is_dial ev || is_new_session ev || is_client_close ev.

Definition count (p : event -> bool) (tr : list event) : nat :=
  List.length (filter p tr).


(** What [copy] feeds the command: the envelope, as far as the pipe of the
    session takes it. *)
Definition fed (size mode : Z) (fileName : string) (contents : io.Reader)
    (session : Session) (st : Sys) : list byte :=
  take_room (Session_stdin_room session (world st))
    (bytes_of (scp.control_line mode size fileName) ++ io.contents_of contents ++ [x00]).

(** The settings of a helper, which is everything but the cached client. *)
Definition same_settings (s s' : helper.scpHelperDelegate) : Prop :=
  helper.dialer s' = helper.dialer s
  /\ helper.flags s' = helper.flags s
  /\ helper.gzip s' = helper.gzip s.

End WithPlatform.

End observe.

(** ** A scripted platform

    A small platform on which the program can be run: the answers of the
    remote side are read off scripts held in the world, files are a table,
    and the codec stores the bytes as they are (it stands in for gzip where a
    run needs some codec; nothing about gzip is drawn from it). *)

Module scripted.

Record world : Type := mkWorld {
  dials : list (error + nat);
  sessions : list (error + nat);
  runs : list (option error);
  files : list (string * (list byte * Z));
  slept : list Z
}.

Definition refused : error := errorString "connection refused".
Definition rejected : error := errorString "ssh: rejected: administratively prohibited".
Definition no_file : error := errorString "no such file or directory".

Definition dial (network addr : string) (config : ClientConfig) (w : world)
    : (error + nat) * world :=
  match dials w with
  | [] => (inl refused, w)
  | r :: rest => (r, mkWorld rest (sessions w) (runs w) (files w) (slept w))
  end.

Definition new_session (c : nat) (w : world) : (error + nat) * world :=
  match sessions w with
  | [] => (inl refused, w)
  | r :: rest => (r, mkWorld (dials w) rest (runs w) (files w) (slept w))
  end.

Definition run (s : nat) (cmd : string) (stdin : list byte) (w : world)
    : option error * world :=
  match runs w with
  | [] => (None, w)
  | r :: rest => (r, mkWorld (dials w) (sessions w) rest (files w) (slept w))
  end.

Fixpoint lookup (path : string) (table : list (string * (list byte * Z)))
    : option (list byte * Z) :=
  match table with
  | [] => None
  | (name, f) :: table' => if String.eqb name path then Some f else lookup path table'
  end.

Definition open (path : string) (w : world) : (error + list byte * Z) * world :=
  match lookup path (files w) with
  | Some f => (inr f, w)
  | None => (inl no_file, w)
  end.

Definition read_file (path : string) (w : world) : (error + list byte) * world :=
  match lookup path (files w) with
  | Some f => (inr (fst f), w)
  | None => (inl no_file, w)
  end.

Definition stat (f : list byte * Z) (w : world) : (error + FileInfo) * world :=
  (inr (mkFileInfo (Z.of_nat (List.length (fst f))) (snd f)), w).

Definition sleep (d : Z) (w : world) : world :=
  mkWorld (dials w) (sessions w) (runs w) (files w) (slept w ++ [d]).

(** The directory of a path that is already clean: what comes before the
    last separator. *)
Definition dir (path : string) : string :=
  match filepath.drop_seps (skipn (List.length (filepath.take_elem (rev (list_ascii_of_string path))))
                                  (rev (list_ascii_of_string path))) with
  | [] => if String.prefix "/" path then "/" else "."
  | d => string_of_list_ascii (rev d)
  end.

#[export] Instance platform : Platform := {|
  World := world;
  Client := nat;
  Session := nat;
  File := list byte * Z;
  GzWriter := list byte;
  filepath_Dir := dir;
  ioutil_ReadFile := read_file;
  ssh_ParsePrivateKey := fun b => inr b;
  ssh_Dial := dial;
  Client_NewSession := new_session;
  Client_Close := fun c w => w;
  Session_stdin_room := fun s w => None;
  Session_Run := run;
  Session_Close := fun s w => w;
  os_Open := open;
  File_Stat := stat;
  File_Reader := fun f => io.Buffer (fst f);
  File_Close := fun f w => w;
  gzip_NewWriter := [];
  gzip_Write := fun w b => w ++ b;
  gzip_Flush := fun w => w;
  gzip_Close := fun w => w;
  gzip_Bytes := fun w => w;
  time_Sleep := sleep
|}.

Definition start (ds ss : list (error + nat)) (rs : list (option error))
    (fs : list (string * (list byte * Z))) : Sys :=
  mkSys (mkWorld ds ss rs fs []) [].

Definition root : helper.Dialer := helper.mkDialer "root" "" "secret" "10.0.0.1:22".

(** A helper that holds connection 1 from an earlier call. *)
Definition cached : helper.scpHelperDelegate :=
  helper.with_client (helper.NewHelper root) (Some 1%nat).

(** An empty file with mode 0644. *)
Definition empty_txt : list (string * (list byte * Z)) := [("/src/empty.txt", ([], 420))].

(** An attempt that fails whatever the state, over a state that holds
    nothing. *)
Definition refuse (st : unit) : option error * unit := (Some refused, st).
Definition no_sleep (d : Z) (st : unit) : unit := st.

End scripted.

(** ** More inputs for the scripted platform *)

Module fixtures.

Import scripted.

(** A dialer set up with a key file. *)
Definition keyed : helper.Dialer := helper.mkDialer "root" "/home/id_rsa" "secret" "10.0.0.1:22".

Definition key_file : list (string * (list byte * Z)) := [("/home/id_rsa", ([x6b; x65; x79], 384))].

Definition disk_error : error := errorString "read: input/output error".

(** A source that gives one byte, then one more together with a read
    error. *)
Definition failing_source : io.Reader := [([x61], None); ([x62], Some disk_error)].

(** A source of three bytes in two chunks, then [io.EOF] on its own. *)
Definition abc_source : io.Reader := [([x61; x62], None); ([x63], None)].

(** A file of mode [-rwsr-x---] (04750) holding three bytes. *)
Definition setuid_file : list (string * (list byte * Z)) :=
  [("/src/tool", ([x61; x62; x63], 2536))].

(** An attempt that succeeds. *)
Definition accept (st : unit) : option error * unit := (None, st).

End fixtures.

(** * Properties *)

(** ** Machine integers *)

Lemma wrap64_id (z : Z) : int64_range z -> wrap64 z = z.
Proof.
  unfold int64_range, wrap64. intros H.
  rewrite Z.mod_small; [lia|].
  change (2 ^ 64) with (2 ^ 63 + 2 ^ 63). lia.
Qed.

Lemma gtb_false (a b : Z) : a <= b -> (a >? b) = false.
Proof. intros H. rewrite Z.gtb_ltb. now apply Z.ltb_ge. Qed.

Lemma gtb_true (a b : Z) : b < a -> (a >? b) = true.
Proof. intros H. rewrite Z.gtb_ltb. now apply Z.ltb_lt. Qed.

(** ** Rendered numbers denote what was rendered *)

Lemma digit_val_digit (base d : Z) :
  0 <= d < base -> base <= 10 -> fmt.digit_val base (fmt.digit d) = Some d.
Proof.
  intros Hd Hb. unfold fmt.digit_val, fmt.digit.
  rewrite N_ascii_embedding by lia.
  rewrite N2Z.inj_add, Z2N.id by lia. simpl Z.of_N.
  replace ((48 <=? 48 + d) && (48 + d <? 48 + base)) with true.
  - f_equal. lia.
  - symmetry. apply andb_true_iff. split; [apply Z.leb_le | apply Z.ltb_lt]; lia.
Qed.

Lemma parse_fmt_loop (base : Z) (fuel : nat) :
  2 <= base <= 10 ->
  forall u buf, 0 <= u < base ^ (Z.of_nat fuel + 1) ->
  exists k, 0 < k /\
    forall acc, fmt.parse_digits base (fmt.fmt_loop fuel base u buf) acc
                = fmt.parse_digits base buf (acc * base ^ k + u).
Proof.
  intros Hb. induction fuel as [|fuel IH]; intros u buf Hu.
  - exists 1. split; [lia|]. intros acc. rewrite Z.pow_1_r.
    change (base ^ (Z.of_nat 0 + 1)) with (base ^ 1) in Hu. rewrite Z.pow_1_r in Hu.
    simpl. now rewrite digit_val_digit by lia.
  - simpl fmt.fmt_loop. destruct (base <=? u) eqn:E.
    + apply Z.leb_le in E.
      assert (Hq : 0 <= u / base < base ^ (Z.of_nat fuel + 1)).
      { split; [apply Z.div_pos; lia|].
        apply Z.div_lt_upper_bound; [lia|].
        replace (Z.of_nat (S fuel) + 1) with (Z.succ (Z.of_nat fuel + 1)) in Hu by lia.
        rewrite Z.pow_succ_r in Hu by lia. lia. }
      destruct (IH (u / base) (String (fmt.digit (u mod base)) buf) Hq) as (k & Hk & Heq).
      exists (k + 1). split; [lia|]. intros acc. rewrite Heq.
      rewrite Z.pow_add_r, Z.pow_1_r by lia. simpl.
      rewrite digit_val_digit by (try lia; apply Z.mod_pos_bound; lia).
      f_equal. pose proof (Z.div_mod u base ltac:(lia)). nia.
    + apply Z.leb_gt in E. exists 1. split; [lia|]. intros acc. rewrite Z.pow_1_r.
      simpl. now rewrite digit_val_digit by lia.
Qed.

Lemma fmt_loop_not_empty (fuel : nat) (base u : Z) (buf : string) :
  fmt.fmt_loop fuel base u buf <> EmptyString.
Proof.
  revert u buf. induction fuel as [|fuel IH]; intros u buf; simpl.
  - discriminate.
  - destruct (base <=? u); [apply IH | discriminate].
Qed.

Lemma parse_fmt_unsigned (base u : Z) :
  2 <= base <= 10 -> 0 <= u < 2 ^ 64 ->
  fmt.parse_unsigned base (fmt.fmt_unsigned base u) = Some u.
Proof.
  intros Hb Hu. unfold fmt.parse_unsigned, fmt.fmt_unsigned.
  destruct (fmt.fmt_loop 64 base u "") eqn:E.
  - now apply fmt_loop_not_empty in E.
  - rewrite <- E.
    assert (Hlt : 0 <= u < base ^ (Z.of_nat 64 + 1)).
    { split; [lia|]. apply Z.lt_le_trans with (2 ^ 65); [lia|].
      apply Z.pow_le_mono_l. lia. }
    destruct (parse_fmt_loop base 64 Hb u "" Hlt) as (k & _ & Heq).
    rewrite Heq. reflexivity.
Qed.

Lemma parse_fmt_d (size : Z) :
  0 <= size < 2 ^ 63 -> fmt.parse_unsigned 10 (fmt.fmt_d size) = Some size.
Proof.
  intros H. unfold fmt.fmt_d.
  destruct (size <? 0) eqn:E; [apply Z.ltb_lt in E; lia|].
  apply parse_fmt_unsigned; lia.
Qed.

Lemma parse_fmt_sharp_o (mode : Z) :
  0 <= mode < 2 ^ 32 ->
  fmt.parse_unsigned 8 (fmt.fmt_sharp_o mode) = Some mode
  /\ exists rest, fmt.fmt_sharp_o mode = String "0" rest.
Proof.
  intros H.
  assert (Hp : fmt.parse_unsigned 8 (fmt.fmt_unsigned 8 mode) = Some mode)
    by (apply parse_fmt_unsigned; lia).
  unfold fmt.fmt_sharp_o.
  destruct (fmt.fmt_unsigned 8 mode) as [|c rest] eqn:E.
  - discriminate Hp.
  - destruct (Ascii.eqb c "0") eqn:Ec.
    + apply Ascii.eqb_eq in Ec. subst c. split; [exact Hp | now exists rest].
    + destruct c as [[] [] [] [] [] [] [] []];
        try (split; [exact Hp | eexists; reflexivity]); discriminate Ec.
Qed.

(** ** The envelope written by [copy] *)

Lemma Write_open (p : io.Pipe) (b : list byte) :
  io.room p = None -> io.closed p = false ->
  io.Write p b = (io.mkPipe (io.sent p ++ b) None false, None).
Proof.
  intros Hr Hc. unfold io.Write. now rewrite Hc, Hr.
Qed.

Lemma io_Copy_open (src : io.Reader) :
  forall dst, io.room dst = None -> io.closed dst = false ->
  exists rest e,
    io.Copy dst src = (io.mkPipe (io.sent dst ++ io.contents_of src) None false, rest, e).
Proof.
  induction src as [|[b er] src IH]; intros dst Hr Hc.
  - exists [], None. simpl. rewrite app_nil_r. destruct dst; simpl in *; now subst.
  - simpl.
    assert (Hw : (match b with [] => (dst, None) | _ :: _ => io.Write dst b end)
                 = (io.mkPipe (io.sent dst ++ b) None false, @None error)).
    { destruct b.
      - rewrite app_nil_r. destruct dst; simpl in *; now subst.
      - now apply Write_open. }
    rewrite Hw. destruct er as [e|].
    + destruct e; eexists; eexists; reflexivity.
    + destruct (IH (io.mkPipe (io.sent dst ++ b) None false) eq_refl eq_refl)
        as (rest & e & Heq).
      exists rest, e. rewrite Heq. simpl. now rewrite app_assoc.
Qed.

Lemma copy_writer_sent (size mode : Z) (fileName : string) (contents : io.Reader) :
  io.sent (fst (scp.copy_writer size mode fileName contents (io.new_pipe None)))
  = bytes_of (scp.control_line mode size fileName) ++ io.contents_of contents ++ [x00].
Proof.
  unfold scp.copy_writer.
  rewrite (Write_open (io.new_pipe None)) by reflexivity.
  destruct (io_Copy_open contents
              (io.mkPipe (io.sent (io.new_pipe None)
                          ++ bytes_of (scp.control_line mode size fileName)) None false)
              eq_refl eq_refl) as (rest & e & Heq).
  rewrite Heq. rewrite Write_open by reflexivity. simpl.
  now rewrite <- app_assoc.
Qed.

Section CopyFacts.

Context {P : Platform}.

Lemma copy_trace (size mode : Z) (fileName : string) (contents : io.Reader)
    (destination : string) (session : Session) (flags : string) (st : Sys) :
  Session_stdin_room session (world st) = None ->
  trace (snd (scp.copy size mode fileName contents destination session flags st))
  = trace st
    ++ [EvRun session ("scp " ++ flags ++ " -t " ++ destination)%string
          (bytes_of (scp.control_line mode size fileName)
           ++ io.contents_of contents ++ [x00]);
        EvSessionClose session].
Proof.
  intros Hroom. unfold scp.copy. rewrite Hroom.
  pose proof (copy_writer_sent size mode fileName contents) as Hs.
  destruct (scp.copy_writer size mode fileName contents (io.new_pipe None)) as [w rest].
  simpl in Hs. rewrite Hs. unfold bind, call, exec, ret.
  destruct (Session_Run _ _ _ _) as [e w']. simpl.
  now rewrite <- app_assoc.
Qed.

(** C5: for a size that fits an [int64], a mode that fits a [FileMode] and
    contents holding [size] bytes, [copy] runs the remote command on a
    standard input made of the line ["C" m " " d " " fileName "\n"], where [m]
    starts with ["0"] and reads as [mode] in octal and [d] reads as [size] in
    decimal, then the [size] bytes of the contents unchanged, then one zero
    byte. *)
Theorem copy_writes_control_line_body_trailer
    (size mode : Z) (fileName : string) (contents : io.Reader)
    (destination : string) (session : Session) (flags : string) (st : Sys) :
  0 <= size < 2 ^ 63 ->
  0 <= mode < 2 ^ 32 ->
  Z.of_nat (List.length (io.contents_of contents)) = size ->
  Session_stdin_room session (world st) = None ->
  exists m d body,
    trace (snd (scp.copy size mode fileName contents destination session flags st))
    = trace st
      ++ [EvRun session ("scp " ++ flags ++ " -t " ++ destination)%string
            (bytes_of ("C" ++ m ++ " " ++ d ++ " " ++ fileName ++ scp.LF)%string
             ++ body ++ [x00]);
          EvSessionClose session]
    /\ (exists rest, m = String "0" rest)
    /\ fmt.parse_unsigned 8 m = Some mode
    /\ fmt.parse_unsigned 10 d = Some size
    /\ body = io.contents_of contents
    /\ Z.of_nat (List.length body) = size.
Proof.
  intros Hsize Hmode Hlen Hroom.
  destruct (parse_fmt_sharp_o mode Hmode) as (Hm & Hzero).
  exists (fmt.fmt_sharp_o mode), (fmt.fmt_d size), (io.contents_of contents).
  repeat split; auto using parse_fmt_d.
  now apply copy_trace.
Qed.

End CopyFacts.

(** ** Sessions and the helper's [Copy] *)

Section HelperFacts.

Context {P : Platform}.

Ltac run_monad := unfold bind, call, call_, exec, ret in *.

Lemma copy_runs_command (size mode : Z) (fileName : string) (contents : io.Reader)
    (destination : string) (session : Session) (flags : string) (st : Sys) :
  exists stdin,
    trace (snd (scp.copy size mode fileName contents destination session flags st))
    = trace st
      ++ [EvRun session ("scp " ++ flags ++ " -t " ++ destination)%string stdin;
          EvSessionClose session].
Proof.
  unfold scp.copy.
  destruct (scp.copy_writer _ _ _ _ _) as [w rest]. exists (io.sent w).
  run_monad. destruct (Session_Run _ _ _ _) as [e w']. simpl.
  now rewrite <- app_assoc.
Qed.

Lemma newSession_keeps_settings (s s' : helper.scpHelperDelegate)
    (r : error + Session) (st st' : Sys) :
  helper.newSession s st = (r, s', st') ->
  helper.flags s' = helper.flags s /\ helper.gzip s' = helper.gzip s
  /\ helper.dialer s' = helper.dialer s.
Proof.
  unfold helper.newSession. run_monad.
  destruct (helper.cached_or_dial s st) as [[e|c] st0].
  - intros H; inversion H; subst; auto.
  - destruct (Client_NewSession c (world st0)) as [[e|sess] w1]; simpl.
    + destruct (helper.Dial _ _) as [[e'|c'] st2].
      * intros H; inversion H; subst; auto.
      * destruct (Client_NewSession c' (world st2)) as [r' w3].
        intros H; inversion H; subst; auto.
    + intros H; inversion H; subst; auto.
Qed.

Lemma Copy_plain_trace (s s' : helper.scpHelperDelegate) (r : io.Reader) (size : Z)
    (dstfile : string) (session : Session) (st st1 : Sys) :
  helper.gzip s = false ->
  helper.newSession s st = (inr session, s', st1) ->
  trace (snd (helper.Copy s r size dstfile st))
  = trace (snd (scp.copy size os_ModePerm (filepath.Base dstfile) r
                  (filepath_Dir dstfile) session (helper.flags s) st1))
    ++ [EvSessionClose session].
Proof.
  intros Hgz Hnew.
  destruct (newSession_keeps_settings _ _ _ _ _ Hnew) as (Hf & Hg & _).
  unfold helper.Copy, bind at 1. rewrite Hnew. rewrite Hg, Hgz, Hf.
  unfold bind at 1.
  destruct (scp.copy _ _ _ _ _ _ _ _) as [[e r'] st2]. reflexivity.
Qed.

Lemma Copy_gzip_trace (s s' : helper.scpHelperDelegate) (r rest : io.Reader)
    (size size' : Z) (dstfile name : string) (cb : io.Reader) (session : Session)
    (st st1 : Sys) :
  helper.gzip s = true ->
  helper.newSession s st = (inr session, s', st1) ->
  helper.Copy_gzip (filepath.Base dstfile) r = (inr (name, cb, size'), rest) ->
  trace (snd (helper.Copy s r size dstfile st))
  = trace (snd (scp.copy size' os_ModePerm name cb
                  (filepath_Dir dstfile) session (helper.flags s) st1))
    ++ [EvSessionClose session].
Proof.
  intros Hgz Hnew Hcg.
  destruct (newSession_keeps_settings _ _ _ _ _ Hnew) as (Hf & Hg & _).
  unfold helper.Copy, bind at 1. rewrite Hnew. rewrite Hg, Hgz, Hf, Hcg.
  unfold bind at 1.
  destruct (scp.copy _ _ _ _ _ _ _ _) as [[e r'] st2]. reflexivity.
Qed.

Lemma Dial_events (d : helper.Dialer) (st : Sys) :
  exists evs,
    trace (snd (helper.Dial d st)) = trace st ++ evs
    /\ Forall helper.accepts_every_host_key evs
    /\ (forall c, fst (helper.Dial d st) = inr c ->
        exists config, evs = [EvDial "tcp" (helper.SSHAddr d) config]).
Proof.
  unfold helper.Dial, helper.Dial_auth. run_monad.
  assert (Hnone : exists evs : list event,
             trace st = trace st ++ evs
             /\ Forall helper.accepts_every_host_key evs)
    by (exists []; now rewrite app_nil_r).
  destruct (negb (helper.SSHFile d =? "")%string).
  - destruct (ioutil_ReadFile (helper.SSHFile d) (world st)) as [[e|b] w]; simpl.
    + exists []. rewrite app_nil_r. repeat split; auto. discriminate.
    + destruct (ssh_ParsePrivateKey b) as [e|key]; simpl.
      * exists []. rewrite app_nil_r. repeat split; auto. discriminate.
      * destruct (ssh_Dial _ _ _ _) as [r w']. simpl. eexists. split; [reflexivity|].
        split; [repeat constructor | intros; eexists; reflexivity].
  - destruct (ssh_Dial _ _ _ _) as [r w']. simpl. eexists. split; [reflexivity|].
    split; [repeat constructor | intros; eexists; reflexivity].
Qed.

(** A call of [newSession] leaves no connection cached only when a dial of
    that call failed, and then the error of that dial is what it returns. *)
Lemma newSession_cleared_only_by_failed_dial (s : helper.scpHelperDelegate) (st : Sys) :
  helper.client (snd (fst (helper.newSession s st))) = None ->
  exists e,
    fst (fst (helper.newSession s st)) = inl e
    /\ ((helper.client s = None /\ fst (helper.Dial (helper.dialer s) st) = inl e)
        \/ (exists c st0 e1 w1,
              helper.cached_or_dial s st = (inr c, st0)
              /\ Client_NewSession c (world st0) = (inl e1, w1)
              /\ fst (helper.Dial (helper.dialer s)
                        (mkSys (Client_Close c w1)
                           (trace st0 ++ [EvNewSession c] ++ [EvClientClose c])))
                 = inl e)).
Proof.
  unfold helper.newSession. run_monad.
  destruct (helper.cached_or_dial s st) as [[e|c] st0] eqn:Hfirst.
  - intros _. exists e. split; [reflexivity|]. left.
    unfold helper.cached_or_dial, ret in Hfirst.
    destruct (helper.client s); [discriminate|]. now rewrite Hfirst.
  - destruct (Client_NewSession c (world st0)) as [[e1|sess] w1] eqn:Hs1;
      cbn [fst snd world trace]; [|discriminate].
    rewrite <- app_assoc.
    destruct (helper.Dial (helper.dialer s) _) as [[e|c'] st2] eqn:Hdial.
    + intros _. exists e. split; [reflexivity|]. right.
      exists c, st0, e1, w1. repeat split; auto. now rewrite Hdial.
    + destruct (Client_NewSession c' (world st2)) as [r w3]. discriminate.
Qed.

(** C2, as the code has it: when the first connection (cached, or dialed
    because none was cached) gives no session, the redial succeeds and the new
    connection gives no session either, [newSession] returns the second
    error and keeps the redialed connection cached.  The next call starts by
    asking that connection for a session: if it gives one, the call is that
    single request, with no dial; only if it gives none is it closed and a
    dial made, and the call ends as that dial and the request on the new
    connection end.  Whatever the helper and the state, a call leaves no
    connection cached only when a dial of that call failed. *)
Theorem newSession_second_failure_keeps_redialed_client
    (s : helper.scpHelperDelegate) (st st0 st2 : Sys) (c c' : Client)
    (e1 e2 : error) (w1 w3 : World) :
  helper.cached_or_dial s st = (inr c, st0) ->
  Client_NewSession c (world st0) = (inl e1, w1) ->
  helper.Dial (helper.dialer s)
    (mkSys (Client_Close c w1) (trace st0 ++ [EvNewSession c] ++ [EvClientClose c]))
  = (inr c', st2) ->
  Client_NewSession c' (world st2) = (inl e2, w3) ->
  let s' := helper.with_client s (Some c') in
  let st3 := mkSys w3 (trace st2 ++ [EvNewSession c']) in
  helper.newSession s st = (inl e2, s', st3)
  /\ helper.client s' = Some c'
  /\ (exists evs,
        trace (snd (helper.newSession s' st3)) = trace st3 ++ EvNewSession c' :: evs)
  /\ (forall sess w,
        Client_NewSession c' (world st3) = (inr sess, w) ->
        helper.newSession s' st3
        = (inr sess, s', mkSys w (trace st3 ++ [EvNewSession c'])))
  /\ (forall e w,
        Client_NewSession c' (world st3) = (inl e, w) ->
        helper.newSession s' st3
        = match helper.Dial (helper.dialer s)
                  (mkSys (Client_Close c' w)
                     (trace st3 ++ [EvNewSession c'] ++ [EvClientClose c'])) with
          | (inl e', st4) => (inl e', helper.with_client s None, st4)
          | (inr c'', st4) =>
              (fst (Client_NewSession c'' (world st4)),
               helper.with_client s (Some c''),
               mkSys (snd (Client_NewSession c'' (world st4)))
                 (trace st4 ++ [EvNewSession c'']))
          end)
  /\ (forall s0 st0,
        helper.client (snd (fst (helper.newSession s0 st0))) = None ->
        exists e,
          fst (fst (helper.newSession s0 st0)) = inl e
          /\ ((helper.client s0 = None
               /\ fst (helper.Dial (helper.dialer s0) st0) = inl e)
              \/ (exists c0 st1 e0 w0,
                    helper.cached_or_dial s0 st0 = (inr c0, st1)
                    /\ Client_NewSession c0 (world st1) = (inl e0, w0)
                    /\ fst (helper.Dial (helper.dialer s0)
                              (mkSys (Client_Close c0 w0)
                                 (trace st1 ++ [EvNewSession c0] ++ [EvClientClose c0])))
                       = inl e))).
Proof.
  intros Hfirst Hs1 Hdial Hs2 s' st3. split; [|split; [|split; [|split; [|split]]]].
  - unfold helper.newSession. run_monad. rewrite Hfirst, Hs1. simpl.
    rewrite <- app_assoc. rewrite Hdial, Hs2. reflexivity.
  - reflexivity.
  - unfold helper.newSession, helper.cached_or_dial. run_monad. simpl.
    destruct (Client_NewSession c' w3) as [[e|sess] w4]; simpl.
    + match goal with
      | |- context [helper.Dial ?d ?st] =>
          destruct (Dial_events d st) as (evs & Htr & _);
          destruct (helper.Dial d st) as [[e'|c''] st5]
      end; simpl in *.
      * exists (EvClientClose c' :: evs). rewrite Htr. simpl.
        now rewrite <- !app_assoc.
      * destruct (Client_NewSession c'' (world st5)) as [r w6]. simpl.
        exists (EvClientClose c' :: evs ++ [EvNewSession c'']). rewrite Htr. simpl.
        now rewrite <- !app_assoc.
    + eexists. reflexivity.
  - intros sess w Hs. unfold helper.newSession, helper.cached_or_dial. run_monad.
    cbn [helper.client s' helper.with_client]. now rewrite Hs.
  - intros e w Hs. unfold helper.newSession, helper.cached_or_dial. run_monad.
    cbn [helper.client s' helper.with_client helper.dialer]. rewrite Hs.
    cbn [fst snd world trace]. rewrite <- app_assoc.
    match goal with
    | |- context [helper.Dial ?d ?st5] => destruct (helper.Dial d st5) as [[e'|c''] st4]
    end; [reflexivity|].
    now destruct (Client_NewSession c'' (world st4)).
  - intros s0 st1. apply newSession_cleared_only_by_failed_dial.
Qed.

(** C4, as the code has it: with gzip off, sending an empty source of size 0
    to a destination whose base name is [empty.txt] runs the remote command
    on exactly the line ["C0777 0 empty.txt\n"] followed at once by the zero
    byte.  The helper passes [os.ModePerm] whatever the mode of the source
    file is. *)
Theorem Copy_empty_file_sends_line_and_trailer
    (s s' : helper.scpHelperDelegate) (r : io.Reader) (dstfile : string)
    (session : Session) (st st1 : Sys) :
  helper.gzip s = false ->
  helper.newSession s st = (inr session, s', st1) ->
  Session_stdin_room session (world st1) = None ->
  io.contents_of r = [] ->
  filepath.Base dstfile = "empty.txt" ->
  trace (snd (helper.Copy s r 0 dstfile st))
  = trace st1
    ++ [EvRun session ("scp " ++ helper.flags s ++ " -t " ++ filepath_Dir dstfile)%string
          (bytes_of ("C0777 0 empty.txt" ++ scp.LF)%string ++ [x00]);
        EvSessionClose session;
        EvSessionClose session].
Proof.
  intros Hgz Hnew Hroom Hempty Hbase.
  rewrite (Copy_plain_trace s s' r 0 dstfile session st st1 Hgz Hnew).
  rewrite copy_trace by exact Hroom.
  rewrite Hempty, Hbase, <- app_assoc. reflexivity.
Qed.

(** C8: a limit of 100 gives the flags ["-l 800"]; a limit of [k] gives
    ["-l "] followed by [k * 8] in decimal; a new helper has no flags; and the
    command [Copy] runs on the session is ["scp " flags " -t " dir], [dir]
    being the directory of the destination. *)
Theorem SetLimitKB_flags_and_remote_command :
  (forall s, helper.flags (helper.SetLimitKB s 100) = "-l 800")
  /\ (forall s k, int64_range (k * 8) ->
        helper.flags (helper.SetLimitKB s k) = ("-l " ++ fmt.fmt_d (k * 8))%string)
  /\ (forall k, 0 <= k * 8 < 2 ^ 63 ->
        fmt.parse_unsigned 10 (fmt.fmt_d (k * 8)) = Some (k * 8))
  /\ (forall d, helper.flags (helper.NewHelper d) = "")
  /\ (forall s s' r size dstfile session st st1,
        helper.newSession s st = (inr session, s', st1) ->
        helper.gzip s = false
        \/ (exists t rest, helper.Copy_gzip (filepath.Base dstfile) r = (inr t, rest)) ->
        exists stdin,
          trace (snd (helper.Copy s r size dstfile st))
          = trace st1
            ++ [EvRun session
                  ("scp " ++ helper.flags s ++ " -t " ++ filepath_Dir dstfile)%string stdin;
                EvSessionClose session;
                EvSessionClose session]).
Proof.
  split; [reflexivity|]. split; [|split; [|split]].
  - intros s k Hk. unfold helper.SetLimitKB. cbn [helper.flags].
    now rewrite wrap64_id.
  - intros k Hk. now apply parse_fmt_d.
  - reflexivity.
  - intros s s' r size dstfile session st st1 Hnew [Hgz | (((name & cb) & size') & rest & Hcg)].
    + rewrite (Copy_plain_trace s s' r size dstfile session st st1 Hgz Hnew).
      destruct (copy_runs_command size os_ModePerm (filepath.Base dstfile) r
                  (filepath_Dir dstfile) session (helper.flags s) st1) as (stdin & Htr).
      exists stdin. rewrite Htr, <- app_assoc. reflexivity.
    + destruct (helper.gzip s) eqn:Hgz.
      * rewrite (Copy_gzip_trace s s' r rest size size' dstfile name cb session st st1
                   Hgz Hnew Hcg).
        destruct (copy_runs_command size' os_ModePerm name cb
                    (filepath_Dir dstfile) session (helper.flags s) st1) as (stdin & Htr).
        exists stdin. rewrite Htr, <- app_assoc. reflexivity.
      * rewrite (Copy_plain_trace s s' r size dstfile session st st1 Hgz Hnew).
        destruct (copy_runs_command size os_ModePerm (filepath.Base dstfile) r
                    (filepath_Dir dstfile) session (helper.flags s) st1) as (stdin & Htr).
        exists stdin. rewrite Htr, <- app_assoc. reflexivity.
Qed.

(** What does hold of the gzip step: the new name is the old one with
    [.gz] appended and the new size is the length of the new contents. *)
Lemma Copy_gzip_name_and_size (name name' : string) (r cb rest : io.Reader) (size : Z) :
  helper.Copy_gzip name r = (inr (name', cb, size), rest) ->
  name' = (name ++ ".gz")%string
  /\ size = Z.of_nat (List.length (io.contents_of cb)).
Proof.
  unfold helper.Copy_gzip.
  destruct (helper.gzip_loop gzip_NewWriter r) as [[e|w] r']; [discriminate|].
  intros H; inversion H; subst. split; [reflexivity|].
  destruct (gzip_Bytes (gzip_Flush w)); simpl; [reflexivity|].
  now rewrite app_nil_r.
Qed.

(** The gzip writer is fed the chunks that came without an error, in order;
    for a reader that never returns bytes with an error these are all it
    holds. *)
Lemma gzip_loop_writes_chunks (r : io.Reader) :
  forall w w' rest,
    helper.gzip_loop w r = (inr w', rest) ->
    w' = fold_left gzip_Write (io.chunks r) w.
Proof.
  induction r as [|[b [e|]] r IH]; intros w w' rest; simpl.
  - intros H; now inversion H.
  - destruct e; intros H; inversion H; reflexivity.
  - apply IH.
Qed.

Lemma plain_contents (r : io.Reader) :
  io.plain r = true -> List.concat (io.chunks r) = io.contents_of r.
Proof.
  induction r as [|[b [e|]] r IH]; simpl; intros H.
  - reflexivity.
  - destruct b; [reflexivity | discriminate H].
  - rewrite IH by (destruct b; exact H). reflexivity.
Qed.

(** C3, at the input where the code leaves it: a reader that hands over its
    bytes together with [io.EOF].  The loop stops on the [io.EOF] without
    writing those bytes, so the payload is what the codec gives for no input
    at all, the same as for an empty source; whatever the codec and the
    decompressor are, decompressing the payload cannot give back the source
    for every reader. *)
Theorem Copy_gzip_drops_bytes_read_with_EOF :
  (forall name b,
     helper.Copy_gzip name [(b, Some io_EOF)]
     = (inr ((name ++ ".gz")%string,
             io.Buffer (gzip_Bytes (gzip_Flush gzip_NewWriter)),
             Z.of_nat (List.length (gzip_Bytes (gzip_Flush gzip_NewWriter)))), [])
     /\ helper.Copy_gzip name [(b, Some io_EOF)] = helper.Copy_gzip name [])
  /\ forall gunzip : list byte -> list byte,
       ~ (forall name r name' cb size rest,
            helper.Copy_gzip name r = (inr (name', cb, size), rest) ->
            gunzip (io.contents_of cb) = io.contents_of r).
Proof.
  split; [intros; split; reflexivity|].
  intros gunzip Hround.
  pose proof (Hround "f" [([x61], Some io_EOF)] _ _ _ _ eq_refl) as H1.
  pose proof (Hround "f" [] _ _ _ _ eq_refl) as H0.
  rewrite H0 in H1. discriminate H1.
Qed.

(** C9: when the source cannot be opened, or its [Stat] fails, [MustCopyPath]
    panics with that error, having done nothing but the open (no attempt, no
    sleep), while [CopyPath] and [TryCopyPath] return the error. *)
Theorem MustCopyPath_panics_where_others_return
    (fuel : nat) (s : helper.scpHelperDelegate) (srcfile dstfile : string) (trys : Z)
    (st : Sys) (e : error) :
  fst (os_Open srcfile (world st)) = inl e
  \/ (exists fd w, os_Open srcfile (world st) = (inr fd, w)
                   /\ fst (File_Stat fd w) = inl e) ->
  fst (helper.MustCopyPath fuel s srcfile dstfile st) = helper.Panicked e
  /\ trace (snd (helper.MustCopyPath fuel s srcfile dstfile st)) = trace st ++ [EvOpen srcfile]
  /\ fst (helper.CopyPath s srcfile dstfile st) = (Some e, s)
  /\ fst (helper.TryCopyPath fuel s srcfile dstfile trys st) = helper.Ran [] (helper.Returned (Some e)) s.
Proof.
  intros H.
  assert (Hopen : exists w, helper.openFile srcfile st
                            = (inl e, mkSys w (trace st ++ [EvOpen srcfile]))).
  { unfold helper.openFile. run_monad.
    destruct H as [H | (fd & w & Ho & Hs)].
    - destruct (os_Open srcfile (world st)) as [[e'|fd] w]; simpl in H; [|discriminate].
      inversion H; subst. now exists w.
    - rewrite Ho. simpl. destruct (File_Stat fd w) as [[e'|info] w']; simpl in Hs;
        [|discriminate].
      inversion Hs; subst. now exists w'. }
  destruct Hopen as (w & Hopen).
  unfold helper.MustCopyPath, helper.CopyPath, helper.TryCopyPath, bind.
  rewrite Hopen. repeat split; reflexivity.
Qed.

(** C10: [Dial] checks no host key.  The callback it puts in the
    configuration accepts every host name, address and key, and a dial that
    [Dial] makes is made with such a configuration. *)
Theorem Dial_accepts_every_host_key (d : helper.Dialer) (st : Sys) :
  (forall authm hostname remote key,
     HostKeyCallback (helper.Dial_config d authm) hostname remote key = None)
  /\ exists evs,
       trace (snd (helper.Dial d st)) = trace st ++ evs
       /\ Forall helper.accepts_every_host_key evs
       /\ (forall c, fst (helper.Dial d st) = inr c ->
           exists config,
             evs = [EvDial "tcp" (helper.SSHAddr d) config]
             /\ forall hostname remote key,
                  HostKeyCallback config hostname remote key = None).
Proof.
  split; [reflexivity|].
  destruct (Dial_events d st) as (evs & Htr & Hall & Hok).
  exists evs. repeat split; auto.
  intros c Hc. destruct (Hok c Hc) as (config & Hev). exists config. split; [exact Hev|].
  subst evs. now inversion Hall.
Qed.

End HelperFacts.

(** ** The retry loops *)

Section RetryFacts.

Variable St : Type.
Variable attempt : St -> option error * St.
Variable Sleep : Z -> St -> St.

Lemma attempts_app_attempted (slept : list helper.retry_event) (r : option error)
    (evs : list helper.retry_event) :
  helper.attempts slept = O ->
  helper.attempts (slept ++ helper.Attempted r :: evs) = S (helper.attempts evs).
Proof.
  induction slept as [|[d|r'] slept IH]; simpl; intros H; auto; discriminate.
Qed.

Lemma last_error_app_attempted (slept evs : list helper.retry_event)
    (r acc : option error) :
  helper.last_error (slept ++ helper.Attempted r :: evs) acc = helper.last_error evs r.
Proof.
  revert acc. induction slept as [|[d|r'] slept IH]; simpl; intros acc; auto.
Qed.

Lemma existsb_success_app_attempted (slept evs : list helper.retry_event)
    (r : option error) :
  existsb helper.is_success slept = false ->
  existsb helper.is_success (slept ++ helper.Attempted r :: evs)
  = helper.is_success (helper.Attempted r) || existsb helper.is_success evs.
Proof.
  intros H. rewrite existsb_app, H. reflexivity.
Qed.

Lemma pause_quiet (d : option Z) (st : St) :
  helper.attempts (fst (helper.pause Sleep d st)) = O
  /\ existsb helper.is_success (fst (helper.pause Sleep d st)) = false.
Proof.
  destruct d; split; reflexivity.
Qed.

Lemma MustCopy_loop_S (fuel : nat) (retryTimes : Z) (st : St) :
  helper.MustCopy_loop attempt Sleep (S fuel) retryTimes st
  = let slept := fst (helper.pause Sleep (helper.MustCopy_pause retryTimes) st) in
    let st1 := snd (helper.pause Sleep (helper.MustCopy_pause retryTimes) st) in
    let (err, st2) := attempt st1 in
    match err with
    | None => (slept ++ [helper.Attempted None], helper.Returned tt, st2)
    | Some _ =>
        let '(evs, res, st3) :=
          helper.MustCopy_loop attempt Sleep fuel (wrap64 (retryTimes + 1)) st2 in
        (slept ++ helper.Attempted err :: evs, res, st3)
    end.
Proof.
  cbn [helper.MustCopy_loop]. now destruct (helper.pause _ _ _).
Qed.

Lemma TryCopy_loop_S (fuel : nat) (trys retryTimes : Z) (err : option error) (st : St) :
  retryTimes <= trys ->
  helper.TryCopy_loop attempt Sleep (S fuel) trys retryTimes err st
  = let slept := fst (helper.pause Sleep (helper.TryCopy_pause retryTimes) st) in
    let st1 := snd (helper.pause Sleep (helper.TryCopy_pause retryTimes) st) in
    let (err', st2) := attempt st1 in
    match err' with
    | None => (slept ++ [helper.Attempted None], helper.Returned None, st2)
    | Some _ =>
        let '(evs, res, st3) :=
          helper.TryCopy_loop attempt Sleep fuel trys (wrap64 (retryTimes + 1)) err st2 in
        (slept ++ helper.Attempted err' :: evs, res, st3)
    end.
Proof.
  intros Hle. cbn [helper.TryCopy_loop].
  rewrite gtb_false by exact Hle. now destruct (helper.pause _ _ _).
Qed.

(** [TryCopy] under an attempt that always fails: it goes on until
    [retryTimes] has passed [trys], which takes [trys + 1] attempts from 0,
    and the error it returns holds the [err] it started with. *)
Lemma TryCopy_loop_always_failing (trys : Z) (err : option error) :
  helper.always_fails attempt ->
  trys + 1 < 2 ^ 63 ->
  forall fuel retryTimes st,
    0 <= retryTimes <= trys + 1 ->
    (Z.to_nat (trys + 1 - retryTimes) < fuel)%nat ->
    let run := helper.TryCopy_loop attempt Sleep fuel trys retryTimes err st in
    helper.result run = helper.Returned (Some (ErrTimes err (trys + 1)))
    /\ helper.attempts (helper.events run) = Z.to_nat (trys + 1 - retryTimes)
    /\ existsb helper.is_success (helper.events run) = false
    /\ forall acc, acc <> None \/ retryTimes <= trys ->
         helper.last_error (helper.events run) acc <> None.
Proof.
  intros Hfail Htrys. induction fuel as [|fuel IH]; intros retryTimes st Hrt Hfuel; [lia|].
  destruct (Z.eq_dec retryTimes (trys + 1)) as [Heq | Hne].
  - subst retryTimes. cbn [helper.TryCopy_loop].
    rewrite gtb_true by lia.
    unfold helper.result, helper.events. cbn [fst snd].
    replace (trys + 1 - (trys + 1)) with 0 by lia. repeat split; auto.
    intros acc [Hacc | Hle]; [exact Hacc | lia].
  - cbv zeta. rewrite TryCopy_loop_S by lia. cbv zeta.
    destruct (pause_quiet (helper.TryCopy_pause retryTimes) st) as (Hq1 & Hq2).
    set (slept := fst (helper.pause Sleep (helper.TryCopy_pause retryTimes) st)) in *.
    set (st1 := snd (helper.pause Sleep (helper.TryCopy_pause retryTimes) st)).
    pose proof (Hfail st1) as Hf. destruct (attempt st1) as [[e|] st2]; [|now elim Hf].
    rewrite wrap64_id by (unfold int64_range; lia).
    specialize (IH (retryTimes + 1) st2 ltac:(lia) ltac:(lia)). cbv zeta in IH.
    destruct (helper.TryCopy_loop attempt Sleep fuel trys (retryTimes + 1) err st2)
      as [[evs res] st3].
    unfold helper.result, helper.events in *. cbn [fst snd] in *.
    destruct IH as (Hres & Hatt & Hsucc & Hlast).
    repeat split.
    + exact Hres.
    + rewrite attempts_app_attempted, Hatt by exact Hq1.
      replace (trys + 1 - retryTimes) with (Z.succ (trys + 1 - (retryTimes + 1))) by lia.
      rewrite Z2Nat.inj_succ by lia. reflexivity.
    + rewrite existsb_success_app_attempted by exact Hq2. exact Hsucc.
    + intros acc _. rewrite last_error_app_attempted. apply Hlast. left. discriminate.
Qed.

(** C1, as the code behaves: with [trys = 3] and an attempt that
    always fails, [TryCopy] makes four attempts, not three, and returns an
    [ErrTimes] whose [times] is 4 and whose [err] is [nil], although the last
    attempt returned an error; calling [Error] on what it returned panics. *)
Theorem TryCopy_3_always_failing_makes_4_attempts (fuel : nat) (st : St) :
  helper.always_fails attempt ->
  (5 <= fuel)%nat ->
  let run := helper.TryCopy_loop attempt Sleep fuel 3 0 None st in
  helper.attempts (helper.events run) = 4%nat
  /\ helper.result run = helper.Returned (Some (ErrTimes None 4))
  /\ helper.last_error (helper.events run) None <> None
  /\ helper.Error (ErrTimes None 4) = None.
Proof.
  intros Hfail Hfuel.
  destruct (TryCopy_loop_always_failing 3 None Hfail ltac:(lia) fuel 0 st
              ltac:(lia) ltac:(simpl; lia)) as (Hres & Hatt & _ & Hlast).
  cbv zeta. repeat split.
  - exact Hatt.
  - exact Hres.
  - apply Hlast. right. lia.
Qed.

(** *** The delays *)

Lemma delay_before_from_pause (d : option Z) (st : St) (n : nat) (acc : Z)
    (r : option error) (evs : list helper.retry_event) :
  helper.delay_before_from n acc (fst (helper.pause Sleep d st) ++ helper.Attempted r :: evs)
  = match n with
    | O => None
    | S O => Some (acc + helper.pause_length d)
    | S n' => helper.delay_before_from n' 0 evs
    end.
Proof.
  destruct d as [d|]; simpl; [reflexivity|].
  destruct n as [|[|n]]; try reflexivity. now rewrite Z.add_0_r.
Qed.

Lemma MustCopy_delay_from (fuel : nat) :
  forall retryTimes st n,
    0 <= retryTimes ->
    retryTimes + Z.of_nat n < 2 ^ 63 ->
    (1 <= n <= helper.attempts
                 (helper.events (helper.MustCopy_loop attempt Sleep fuel retryTimes st)))%nat ->
    helper.delay_before n
      (helper.events (helper.MustCopy_loop attempt Sleep fuel retryTimes st))
    = Some (helper.pause_length (helper.MustCopy_pause (retryTimes + Z.of_nat n - 1))).
Proof.
  induction fuel as [|fuel IH]; intros retryTimes st n Hrt Hn Hatt.
  - simpl in Hatt. lia.
  - assert (Hn1 : (1 <= n)%nat) by lia.
    revert Hatt. rewrite MustCopy_loop_S. cbv zeta.
    destruct (pause_quiet (helper.MustCopy_pause retryTimes) st) as (Hq & _).
    destruct (attempt _) as [[e|] st2].
    + specialize (IH (retryTimes + 1) st2).
      rewrite wrap64_id by (unfold int64_range; lia).
      destruct (helper.MustCopy_loop attempt Sleep fuel (retryTimes + 1) st2)
        as [[evs res] st3].
      unfold helper.events, helper.delay_before in *. cbn [fst snd] in *.
      rewrite attempts_app_attempted by exact Hq. intros Hatt.
      rewrite delay_before_from_pause.
      destruct n as [|[|n]]; [lia | |].
      * replace (retryTimes + Z.of_nat 1 - 1) with retryTimes by lia. reflexivity.
      * rewrite (IH (S n)) by lia. do 3 f_equal. lia.
    + unfold helper.events, helper.delay_before. cbn [fst snd].
      rewrite attempts_app_attempted by exact Hq. intros Hatt.
      rewrite delay_before_from_pause.
      destruct n as [|[|n]]; [lia | | simpl in Hatt; lia].
      replace (retryTimes + Z.of_nat 1 - 1) with retryTimes by lia. reflexivity.
Qed.

Lemma TryCopy_delay_from (trys : Z) (err : option error) (fuel : nat) :
  forall retryTimes st n,
    0 <= retryTimes ->
    retryTimes + Z.of_nat n < 2 ^ 63 ->
    (1 <= n <= helper.attempts
                 (helper.events
                    (helper.TryCopy_loop attempt Sleep fuel trys retryTimes err st)))%nat ->
    helper.delay_before n
      (helper.events (helper.TryCopy_loop attempt Sleep fuel trys retryTimes err st))
    = Some (helper.pause_length (helper.TryCopy_pause (retryTimes + Z.of_nat n - 1))).
Proof.
  induction fuel as [|fuel IH]; intros retryTimes st n Hrt Hn Hatt.
  - simpl in Hatt. lia.
  - destruct (Z_le_gt_dec retryTimes trys) as [Hle | Hgt].
    + assert (Hn1 : (1 <= n)%nat) by lia.
      revert Hatt. rewrite TryCopy_loop_S by exact Hle. cbv zeta.
      destruct (pause_quiet (helper.TryCopy_pause retryTimes) st) as (Hq & _).
      destruct (attempt _) as [[e|] st2].
      * specialize (IH (retryTimes + 1) st2).
        rewrite wrap64_id by (unfold int64_range; lia).
        destruct (helper.TryCopy_loop attempt Sleep fuel trys (retryTimes + 1) err st2)
          as [[evs res] st3].
        unfold helper.events, helper.delay_before in *. cbn [fst snd] in *.
        rewrite attempts_app_attempted by exact Hq. intros Hatt.
        rewrite delay_before_from_pause.
        destruct n as [|[|n]]; [lia | |].
        -- replace (retryTimes + Z.of_nat 1 - 1) with retryTimes by lia. reflexivity.
        -- rewrite (IH (S n)) by lia. do 3 f_equal. lia.
      * unfold helper.events, helper.delay_before. cbn [fst snd].
        rewrite attempts_app_attempted by exact Hq. intros Hatt.
        rewrite delay_before_from_pause.
        destruct n as [|[|n]]; [lia | | simpl in Hatt; lia].
        replace (retryTimes + Z.of_nat 1 - 1) with retryTimes by lia. reflexivity.
    + revert Hatt. cbn [helper.TryCopy_loop]. rewrite gtb_true by lia.
      unfold helper.events. simpl. lia.
Qed.

(** C6, as the code has it: the time slept before attempt [n] is nothing for
    the first attempt; in [MustCopy], [n - 1] seconds for attempts 2 to 11
    and one minute from attempt 12 on; in [TryCopy], [n - 1] seconds for every
    attempt after the first, with no ceiling. *)
Theorem retry_delay_before_attempt (fuel : nat) (st : St) (n : nat) :
  (1 <= n)%nat ->
  Z.of_nat n < 2 ^ 63 ->
  ((n <= helper.attempts (helper.events (helper.MustCopy_loop attempt Sleep fuel 0 st)))%nat ->
   helper.delay_before n (helper.events (helper.MustCopy_loop attempt Sleep fuel 0 st))
   = Some (if Z.of_nat n =? 1 then 0
           else if Z.of_nat n <=? 11 then (Z.of_nat n - 1) * time_Second
           else time_Minute))
  /\ (forall trys,
        (n <= helper.attempts
                (helper.events (helper.TryCopy_loop attempt Sleep fuel trys 0 None st)))%nat ->
        (Z.of_nat n - 1) * time_Second < 2 ^ 63 ->
        helper.delay_before n
          (helper.events (helper.TryCopy_loop attempt Sleep fuel trys 0 None st))
        = Some ((Z.of_nat n - 1) * time_Second)).
Proof.
  intros Hn Hbound. split.
  - intros Hatt. rewrite MustCopy_delay_from by lia.
    f_equal. unfold helper.MustCopy_pause. simpl (0 + _).
    destruct (Z.eqb_spec (Z.of_nat n) 1) as [H1 | H1].
    + rewrite !gtb_false by lia. reflexivity.
    + destruct (Z.leb_spec (Z.of_nat n) 11) as [H11 | H11].
      * rewrite gtb_false, gtb_true by lia. cbn [helper.pause_length].
        apply wrap64_id. unfold int64_range, time_Second. lia.
      * rewrite gtb_true by lia. reflexivity.
  - intros trys Hatt Hsec. rewrite TryCopy_delay_from by lia.
    f_equal. unfold helper.TryCopy_pause. simpl (0 + _).
    destruct (Z.eq_dec (Z.of_nat n) 1) as [H1 | H1].
    + rewrite gtb_false by lia. rewrite H1. reflexivity.
    + rewrite gtb_true by lia. cbn [helper.pause_length].
      apply wrap64_id. unfold int64_range, time_Second in *. lia.
Qed.

(** *** Returning *)

Lemma MustCopy_returns_iff_success (fuel : nat) :
  forall retryTimes st,
    helper.result (helper.MustCopy_loop attempt Sleep fuel retryTimes st) = helper.Returned tt
    <-> existsb helper.is_success
          (helper.events (helper.MustCopy_loop attempt Sleep fuel retryTimes st)) = true.
Proof.
  induction fuel as [|fuel IH]; intros retryTimes st.
  - unfold helper.result, helper.events. simpl. split; discriminate.
  - rewrite MustCopy_loop_S. cbv zeta.
    destruct (pause_quiet (helper.MustCopy_pause retryTimes) st) as (_ & Hq).
    destruct (attempt _) as [[e|] st2].
    + specialize (IH (wrap64 (retryTimes + 1)) st2).
      destruct (helper.MustCopy_loop attempt Sleep fuel (wrap64 (retryTimes + 1)) st2)
        as [[evs res] st3].
      unfold helper.result, helper.events in *. cbn [fst snd] in *.
      rewrite existsb_success_app_attempted by exact Hq. exact IH.
    + unfold helper.result, helper.events. cbn [fst snd].
      rewrite existsb_success_app_attempted by exact Hq. split; reflexivity.
Qed.

Lemma MustCopy_return_is_stable (fuel : nat) :
  forall fuel' retryTimes st,
    (fuel <= fuel')%nat ->
    helper.result (helper.MustCopy_loop attempt Sleep fuel retryTimes st) = helper.Returned tt ->
    helper.MustCopy_loop attempt Sleep fuel' retryTimes st
    = helper.MustCopy_loop attempt Sleep fuel retryTimes st.
Proof.
  induction fuel as [|fuel IH]; intros fuel' retryTimes st Hle.
  - unfold helper.result. simpl. discriminate.
  - destruct fuel' as [|fuel']; [lia|].
    rewrite !MustCopy_loop_S. cbv zeta.
    destruct (attempt _) as [[e|] st2]; [|reflexivity].
    specialize (IH fuel' (wrap64 (retryTimes + 1)) st2 ltac:(lia)).
    destruct (helper.MustCopy_loop attempt Sleep fuel (wrap64 (retryTimes + 1)) st2)
      as [[evs res] st3].
    unfold helper.result in *. cbn [fst snd] in *.
    intros Hres. now rewrite (IH Hres).
Qed.

Lemma MustCopy_always_failing (fuel : nat) :
  helper.always_fails attempt ->
  forall retryTimes st,
    helper.result (helper.MustCopy_loop attempt Sleep fuel retryTimes st) = helper.StillRunning
    /\ helper.attempts
         (helper.events (helper.MustCopy_loop attempt Sleep fuel retryTimes st)) = fuel.
Proof.
  intros Hfail. induction fuel as [|fuel IH]; intros retryTimes st.
  - split; reflexivity.
  - rewrite MustCopy_loop_S. cbv zeta.
    destruct (pause_quiet (helper.MustCopy_pause retryTimes) st) as (Hq & _).
    match goal with |- context [attempt ?x] => pose proof (Hfail x) as Hf end.
    destruct (attempt _) as [[e|] st2]; [|now elim Hf].
    specialize (IH (wrap64 (retryTimes + 1)) st2).
    destruct (helper.MustCopy_loop attempt Sleep fuel (wrap64 (retryTimes + 1)) st2)
      as [[evs res] st3].
    unfold helper.result, helper.events in *. cbn [fst snd] in *.
    destruct IH as (Hres & Hatt). split; [exact Hres|].
    now rewrite attempts_app_attempted, Hatt by exact Hq.
Qed.

Lemma MustCopy_running_keeps_trying (fuel : nat) :
  forall retryTimes st,
    helper.result (helper.MustCopy_loop attempt Sleep fuel retryTimes st) = helper.StillRunning ->
    helper.attempts
      (helper.events (helper.MustCopy_loop attempt Sleep fuel retryTimes st)) = fuel.
Proof.
  induction fuel as [|fuel IH]; intros retryTimes st.
  - reflexivity.
  - rewrite MustCopy_loop_S. cbv zeta.
    destruct (pause_quiet (helper.MustCopy_pause retryTimes) st) as (Hq & _).
    destruct (attempt _) as [[e|] st2].
    + specialize (IH (wrap64 (retryTimes + 1)) st2).
      destruct (helper.MustCopy_loop attempt Sleep fuel (wrap64 (retryTimes + 1)) st2)
        as [[evs res] st3].
      unfold helper.result, helper.events in *. cbn [fst snd] in *.
      intros Hres. now rewrite attempts_app_attempted, IH by auto.
    + unfold helper.result. cbn [fst snd]. discriminate.
Qed.

End RetryFacts.

(** ** Runs on the scripted platform *)

Module runs.

Import scripted.

(** [TryCopy] with [trys = 3] where every attempt is refused. *)
Lemma TryCopy_3_refused :
  let run := helper.TryCopy_loop refuse no_sleep 5 3 0 None tt in
  helper.attempts (helper.events run) = 4%nat
  /\ helper.result run = helper.Returned (Some (ErrTimes None 4))
  /\ helper.last_error (helper.events run) None <> None
  /\ helper.Error (ErrTimes None 4) = None.
Proof.
  apply (TryCopy_3_always_failing_makes_4_attempts unit refuse no_sleep 5 tt).
  - intros st. discriminate.
  - lia.
Defined.

(** The same through the helper, with nothing answering the dials. *)
Example TryCopy_3_nothing_answers :
  let run := helper.TryCopy 9 (helper.NewHelper root) [] 0 "/tmp/f" 3 (start [] [] [] []) in
  helper.events run
  = [helper.Attempted (Some refused); helper.Slept (1 * time_Second);
     helper.Attempted (Some refused); helper.Slept (2 * time_Second);
     helper.Attempted (Some refused); helper.Slept (3 * time_Second);
     helper.Attempted (Some refused)]
  /\ helper.result run = helper.Returned (Some (ErrTimes None 4)).
Proof. split; reflexivity. Qed.

(** C2 at a helper with a cached connection: both connections
    refuse the session; the second error comes back, and the helper holds
    connection 2, it is not cleared. *)
Lemma newSession_twice_refused_client_not_cleared :
  let r := helper.newSession cached (start [inr 2%nat] [inl refused; inl rejected] [] []) in
  fst (fst r) = inl rejected
  /\ helper.client (snd (fst r)) = Some 2%nat
  /\ helper.client (snd (fst r)) <> None.
Proof.
  cbv zeta. split; [reflexivity | split; [reflexivity | discriminate]].
Qed.

Lemma newSession_twice_refused_keeps_client_2 :
  let st := start [inr 2%nat] [inl refused; inl rejected] [] [] in
  fst (helper.newSession cached st) = (inl rejected, helper.with_client cached (Some 2%nat))
  /\ exists evs,
       trace (snd (helper.newSession (helper.with_client cached (Some 2%nat))
                     (snd (helper.newSession cached st))))
       = trace (snd (helper.newSession cached st)) ++ EvNewSession 2%nat :: evs.
Proof.
  intros st.
  destruct (newSession_second_failure_keeps_redialed_client
              (P := platform) cached st st _ 1%nat 2%nat refused rejected _ _
              eq_refl eq_refl eq_refl eq_refl) as (Hret & _ & Hnext & _).
  split.
  - reflexivity.
  - exact Hnext.
Defined.

(** C4 at an empty file of mode 0644 copied by [CopyPath]: the
    line sent says 0777. *)
Lemma CopyPath_empty_0644_file_sends_0777 :
  commands_run
    (trace (snd (helper.CopyPath (helper.NewHelper root) "/src/empty.txt" "/tmp/empty.txt"
                   (start [inr 1%nat] [inr 7%nat] [] empty_txt))))
  = [("scp  -t /tmp", bytes_of ("C0777 0 empty.txt" ++ scp.LF)%string ++ [x00])]
  /\ bytes_of ("C0777 0 empty.txt" ++ scp.LF)%string ++ [x00]
     <> bytes_of ("C0644 0 empty.txt" ++ scp.LF)%string ++ [x00].
Proof.
  split; [reflexivity | discriminate].
Qed.

Lemma Copy_empty_file_run :
  let st := start [inr 1%nat] [inr 7%nat] [] [] in
  trace (snd (helper.Copy (helper.NewHelper root) [] 0 "/tmp/empty.txt" st))
  = trace (snd (helper.newSession (helper.NewHelper root) st))
    ++ [EvRun 7%nat "scp  -t /tmp" (bytes_of ("C0777 0 empty.txt" ++ scp.LF)%string ++ [x00]);
        EvSessionClose 7%nat;
        EvSessionClose 7%nat].
Proof.
  intros st.
  exact (Copy_empty_file_sends_line_and_trailer
           (P := platform) (helper.NewHelper root) _ [] "/tmp/empty.txt" 7%nat st _
           eq_refl eq_refl eq_refl eq_refl eq_refl).
Defined.

(** The package-level [Copy] does send the mode it is given. *)
Example Copy_empty_file_mode_0644 :
  commands_run
    (trace (snd (scp.Copy 0 420 "empty.txt" [] "/tmp" 7%nat (start [] [] [] []))))
  = [("scp  -t /tmp", bytes_of ("C0644 0 empty.txt" ++ scp.LF)%string ++ [x00])].
Proof. reflexivity. Qed.

(** The gzip branch on a reader that gives its two bytes together with
    [io.EOF], with the codec that stores: the size sent is 0 and no byte of
    the source is sent. *)
Example Copy_gzip_two_bytes_with_EOF :
  commands_run
    (trace (snd (helper.Copy (helper.SetGzipEnable (helper.NewHelper root) true)
                   [([x61; x62], Some io_EOF)] 2 "/tmp/a.txt"
                   (start [inr 1%nat] [inr 7%nat] [] []))))
  = [("scp  -t /tmp", bytes_of ("C0777 0 a.txt.gz" ++ scp.LF)%string ++ [x00])].
Proof. reflexivity. Qed.

(** C5 on a three-byte file of mode 0644. *)
Lemma copy_abc_run :
  exists m d body,
    trace (snd (scp.copy 3 420 "a.txt" [([x61; x62; x63], None)] "/tmp" 7%nat "-l 800"
                  (start [] [] [] [])))
    = [EvRun 7%nat "scp -l 800 -t /tmp"
         (bytes_of ("C" ++ m ++ " " ++ d ++ " " ++ "a.txt" ++ scp.LF)%string
          ++ body ++ [x00]);
       EvSessionClose 7%nat]
    /\ (exists rest, m = String "0" rest)
    /\ fmt.parse_unsigned 8 m = Some 420
    /\ fmt.parse_unsigned 10 d = Some 3
    /\ body = [x61; x62; x63]
    /\ Z.of_nat (List.length body) = 3.
Proof.
  apply (copy_writes_control_line_body_trailer
           (P := platform) 3 420 "a.txt" [([x61; x62; x63], None)] "/tmp" 7%nat "-l 800"
           (start [] [] [] [])).
  - lia.
  - lia.
  - reflexivity.
  - reflexivity.
Defined.

(** C6 at attempt 2: one second is slept, not two; and at attempt
    11: ten seconds, not the minute. *)
Lemma MustCopy_second_attempt_waits_one_second :
  let evs := helper.events (helper.MustCopy 12 (helper.NewHelper root) [] 0 "/tmp/f"
                              (start [] [] [] [])) in
  helper.delay_before 2 evs = Some (1 * time_Second)
  /\ helper.delay_before 2 evs <> Some (2 * time_Second)
  /\ helper.delay_before 11 evs = Some (10 * time_Second)
  /\ helper.delay_before 11 evs <> Some time_Minute.
Proof.
  cbv zeta. split; [reflexivity | split; [vm_compute; discriminate | split]].
  - reflexivity.
  - vm_compute. discriminate.
Qed.

Lemma retry_delay_before_attempt_12 :
  helper.delay_before 12 (helper.events (helper.MustCopy_loop refuse no_sleep 12 0 tt))
  = Some time_Minute
  /\ helper.delay_before 12
       (helper.events (helper.TryCopy_loop refuse no_sleep 12 20 0 None tt))
     = Some (11 * time_Second).
Proof.
  destruct (retry_delay_before_attempt unit refuse no_sleep 12 tt 12
              ltac:(lia) ltac:(lia)) as (Hmust & Htry).
  split.
  - exact (Hmust (Nat.le_refl 12)).
  - apply (Htry 20).
    + apply Nat.le_refl.
    + reflexivity.
Defined.

(** [MustCopy] through the helper: two dials are refused, the third attempt
    goes through, and it returns. *)
Example MustCopy_third_attempt_succeeds :
  let run := helper.MustCopy 9 (helper.NewHelper root) [] 0 "/tmp/f"
               (start [inl refused; inl refused; inr 1%nat] [inr 7%nat] [] []) in
  helper.result run = helper.Returned tt
  /\ helper.attempts (helper.events run) = 3%nat.
Proof. split; reflexivity. Qed.

(** C8 at 100 KB/s. *)
Lemma SetLimitKB_100_run :
  helper.flags (helper.SetLimitKB (helper.NewHelper root) 100) = "-l 800"
  /\ helper.flags (helper.SetLimitKB (helper.NewHelper root) 100)
     = ("-l " ++ fmt.fmt_d (100 * 8))%string
  /\ exists stdin,
       trace (snd (helper.Copy (helper.SetLimitKB (helper.NewHelper root) 100) [] 0 "/tmp/f"
                     (start [inr 1%nat] [inr 7%nat] [] [])))
       = trace (snd (helper.newSession (helper.SetLimitKB (helper.NewHelper root) 100)
                       (start [inr 1%nat] [inr 7%nat] [] [])))
         ++ [EvRun 7%nat "scp -l 800 -t /tmp" stdin;
             EvSessionClose 7%nat; EvSessionClose 7%nat].
Proof.
  destruct (SetLimitKB_flags_and_remote_command (P := platform))
    as (H100 & Hk & _ & _ & Hcmd).
  split; [apply H100 | split].
  - apply Hk. unfold int64_range. lia.
  - apply (Hcmd (helper.SetLimitKB (helper.NewHelper root) 100) _ [] 0 "/tmp/f" 7%nat
             (start [inr 1%nat] [inr 7%nat] [] []) _ eq_refl).
    left. reflexivity.
Defined.

(** C9 at a path that is not there. *)
Lemma MustCopyPath_missing_file_run :
  let st := start [inr 1%nat] [inr 7%nat] [] empty_txt in
  fst (helper.MustCopyPath 9 (helper.NewHelper root) "/src/none" "/tmp/f" st)
  = helper.Panicked no_file
  /\ trace (snd (helper.MustCopyPath 9 (helper.NewHelper root) "/src/none" "/tmp/f" st))
     = [EvOpen "/src/none"]
  /\ fst (helper.CopyPath (helper.NewHelper root) "/src/none" "/tmp/f" st)
     = (Some no_file, helper.NewHelper root)
  /\ fst (helper.TryCopyPath 9 (helper.NewHelper root) "/src/none" "/tmp/f" 3 st)
     = helper.Ran [] (helper.Returned (Some no_file)) (helper.NewHelper root).
Proof.
  intros st.
  apply (MustCopyPath_panics_where_others_return
           (P := platform) 9 (helper.NewHelper root) "/src/none" "/tmp/f" 3 st no_file).
  left. reflexivity.
Defined.

(** C10 at a dial that goes through. *)
Lemma Dial_run :
  exists config,
    trace (snd (helper.Dial root (start [inr 1%nat] [] [] [])))
    = [EvDial "tcp" "10.0.0.1:22" config]
    /\ forall hostname remote key, HostKeyCallback config hostname remote key = None.
Proof.
  destruct (Dial_accepts_every_host_key (P := platform) root (start [inr 1%nat] [] [] []))
    as (_ & evs & Htr & _ & Hok).
  destruct (Hok 1%nat eq_refl) as (config & Hev & Hcb).
  exists config. split; [|exact Hcb].
  rewrite Htr, Hev. reflexivity.
Defined.

End runs.

(** * Further properties *)

(** ** [newSession] *)

Section SessionFacts.

Context {P : Platform}.

Ltac run_monad := unfold bind, call, call_, exec, ret in *.

Lemma Dial_shape (d : helper.Dialer) (st : Sys) :
  (exists e w, helper.Dial d st = (inl e, mkSys w (trace st)))
  \/ (exists r w config,
        helper.Dial d st
        = (r, mkSys w (trace st ++ [EvDial "tcp" (helper.SSHAddr d) config]))).
Proof.
  unfold helper.Dial, helper.Dial_auth. run_monad.
  destruct (negb (helper.SSHFile d =? "")%string).
  - destruct (ioutil_ReadFile (helper.SSHFile d) (world st)) as [[e|b] w]; simpl.
    + left. now exists e, w.
    + destruct (ssh_ParsePrivateKey b) as [e|key]; simpl.
      * left. now exists e, w.
      * right. destruct (ssh_Dial _ _ _ _) as [r w']. now exists r, w', (helper.Dial_config d (PublicKeys key)).
  - right. destruct (ssh_Dial _ _ _ _) as [r w'].
    now exists r, w', (helper.Dial_config d (Password (helper.SSHPass d))).
Qed.

(** X1: a cached (or just dialed) connection that gives no session is closed
    and replaced once; when the new connection gives a session, the caller
    gets that session, the first error is not reported, and the new
    connection is the one cached. *)
Theorem newSession_recovers_with_one_redial
    (s : helper.scpHelperDelegate) (st st0 st2 : Sys) (c c' : Client)
    (e1 : error) (sess : Session) (w1 w3 : World) :
  helper.cached_or_dial s st = (inr c, st0) ->
  Client_NewSession c (world st0) = (inl e1, w1) ->
  helper.Dial (helper.dialer s)
    (mkSys (Client_Close c w1) (trace st0 ++ [EvNewSession c] ++ [EvClientClose c]))
  = (inr c', st2) ->
  Client_NewSession c' (world st2) = (inr sess, w3) ->
  helper.newSession s st
  = (inr sess, helper.with_client s (Some c'), mkSys w3 (trace st2 ++ [EvNewSession c'])).
Proof.
  intros Hfirst Hs1 Hdial Hs2.
  unfold helper.newSession. run_monad. rewrite Hfirst, Hs1. simpl.
  rewrite <- app_assoc. rewrite Hdial, Hs2. reflexivity.
Qed.

(** X2: a dial that fails is reported as it is and leaves no connection
    cached: at the first dial nothing more is done, and at the redial the
    connection that gave no session has been closed and is forgotten. *)
Theorem newSession_failed_dial_leaves_no_client
    (s : helper.scpHelperDelegate) (st st0 st' : Sys) (c : Client)
    (e e1 : error) (w1 : World) :
  (helper.client s = None /\ helper.Dial (helper.dialer s) st = (inl e, st'))
  \/ (helper.cached_or_dial s st = (inr c, st0)
      /\ Client_NewSession c (world st0) = (inl e1, w1)
      /\ helper.Dial (helper.dialer s)
           (mkSys (Client_Close c w1) (trace st0 ++ [EvNewSession c] ++ [EvClientClose c]))
         = (inl e, st')) ->
  helper.newSession s st = (inl e, helper.with_client s None, st')
  /\ helper.client (snd (fst (helper.newSession s st))) = None.
Proof.
  intros H.
  assert (Heq : helper.newSession s st = (inl e, helper.with_client s None, st')).
  { destruct H as [(Hnone & Hdial) | (Hfirst & Hs1 & Hdial)].
    - unfold helper.newSession, helper.cached_or_dial. run_monad.
      now rewrite Hnone, Hdial.
    - unfold helper.newSession. run_monad. rewrite Hfirst, Hs1. simpl.
      rewrite <- app_assoc. now rewrite Hdial. }
  split; [exact Heq | now rewrite Heq].
Qed.

Lemma Dial_new_events (d : helper.Dialer) (st : Sys) :
  exists evs,
    trace (snd (helper.Dial d st)) = trace st ++ evs
    /\ (evs = [] \/ exists config, evs = [EvDial "tcp" (helper.SSHAddr d) config]).
Proof.
  destruct (Dial_shape d st) as [(e & w & H) | (r & w & config & H)]; rewrite H; simpl.
  - exists []. split; [now rewrite app_nil_r | now left].
  - eexists. split; [reflexivity | right; now exists config].
Qed.

(** X3: one call of [newSession] does a bounded amount of work, all of it on
    connections: at most two dials, at most two requests for a session and at
    most one close; it runs no command and closes no session. *)
Theorem newSession_bounded_effort (s : helper.scpHelperDelegate) (st : Sys) :
  exists evs,
    trace (snd (helper.newSession s st)) = trace st ++ evs
    /\ forallb observe.on_connection evs = true
    /\ (observe.count observe.is_dial evs <= 2)%nat
    /\ (observe.count observe.is_new_session evs <= 2)%nat
    /\ (observe.count observe.is_client_close evs <= 1)%nat
    /\ commands_run evs = [].
Proof.
  unfold helper.newSession. run_monad.
  assert (Hfirst : exists evs1 r st0,
            helper.cached_or_dial s st = (r, st0)
            /\ trace st0 = trace st ++ evs1
            /\ (evs1 = [] \/ exists config, evs1 = [EvDial "tcp" (helper.SSHAddr (helper.dialer s)) config])).
  { unfold helper.cached_or_dial, ret. destruct (helper.client s) as [c|].
    - exists [], (inr c), st. rewrite app_nil_r. auto.
    - destruct (Dial_new_events (helper.dialer s) st) as (evs1 & H1 & Hs1).
      destruct (helper.Dial (helper.dialer s) st) as [r st0]. now exists evs1, r, st0. }
  destruct Hfirst as (evs1 & r & st0 & Hrun & Htr0 & Hshape1). rewrite Hrun. clear Hrun.
  destruct r as [e|c]; simpl.
  - exists evs1. split; [exact Htr0|].
    destruct Hshape1 as [-> | (config & ->)]; repeat split; cbn; lia.
  - destruct (Client_NewSession c (world st0)) as [[e|sess] w1]; simpl.
    + match goal with
      | |- context [helper.Dial ?d ?st2] =>
          destruct (Dial_new_events d st2) as (evs2 & Htr2 & Hshape2);
          destruct (helper.Dial d st2) as [[e'|c'] st3]
      end; simpl in *.
      * exists (evs1 ++ [EvNewSession c; EvClientClose c] ++ evs2).
        split; [rewrite Htr2, Htr0, <- !app_assoc; reflexivity|].
        destruct Hshape1 as [-> | (config1 & ->)];
          destruct Hshape2 as [-> | (config2 & ->)]; repeat split; cbn; lia.
      * destruct (Client_NewSession c' (world st3)) as [r w4]. simpl.
        exists (evs1 ++ [EvNewSession c; EvClientClose c] ++ evs2 ++ [EvNewSession c']).
        split; [rewrite Htr2, Htr0, <- !app_assoc; reflexivity|].
        destruct Hshape1 as [-> | (config1 & ->)];
          destruct Hshape2 as [-> | (config2 & ->)]; repeat split; cbn; lia.
    + exists (evs1 ++ [EvNewSession c]).
      split; [rewrite Htr0, <- !app_assoc; reflexivity|].
      destruct Hshape1 as [-> | (config1 & ->)]; repeat split; cbn; lia.
Qed.



End SessionFacts.

(** ** More on the retry loops *)

Lemma triangle_mono (r t : Z) : 0 <= r <= t + 1 -> 0 <= t * (t + 1) - r * (r - 1).
Proof.
  intros H. replace (t * (t + 1) - r * (r - 1)) with ((t + 1 - r) * (t + r)) by ring.
  destruct (Z.eq_dec r 0) as [-> | Hr].
  - destruct (Z.eq_dec t (-1)) as [-> | Ht]; [reflexivity|].
    apply Z.mul_nonneg_nonneg; lia.
  - apply Z.mul_nonneg_nonneg; lia.
Qed.

Section RetryMore.

Variable St : Type.
Variable attempt : St -> option error * St.
Variable Sleep : Z -> St -> St.

Lemma TryCopy_loop_outcome (trys : Z) (err : option error) :
  trys + 1 < 2 ^ 63 ->
  forall fuel retryTimes st,
    0 <= retryTimes ->
    (Z.to_nat (trys + 1 - retryTimes) < fuel)%nat ->
    let run := helper.TryCopy_loop attempt Sleep fuel trys retryTimes err st in
    (helper.attempts (helper.events run) <= Z.to_nat (trys + 1 - retryTimes))%nat
    /\ ((helper.result run = helper.Returned None
         /\ exists evs, helper.events run = evs ++ [helper.Attempted None]
                        /\ existsb helper.is_success evs = false)
        \/ (helper.result run
            = helper.Returned (Some (ErrTimes err (Z.max retryTimes (trys + 1))))
            /\ existsb helper.is_success (helper.events run) = false
            /\ helper.attempts (helper.events run) = Z.to_nat (trys + 1 - retryTimes))).
Proof.
  intros Htrys. induction fuel as [|fuel IH]; intros retryTimes st Hrt Hfuel; [lia|].
  destruct (Z_le_gt_dec retryTimes trys) as [Hle | Hgt].
  - cbv zeta. rewrite TryCopy_loop_S by exact Hle. cbv zeta.
    destruct (pause_quiet St Sleep (helper.TryCopy_pause retryTimes) st) as (Hq1 & Hq2).
    set (slept := fst (helper.pause Sleep (helper.TryCopy_pause retryTimes) st)) in *.
    destruct (attempt _) as [[e|] st2].
    + rewrite wrap64_id by (unfold int64_range; lia).
      specialize (IH (retryTimes + 1) st2 ltac:(lia) ltac:(lia)). cbv zeta in IH.
      destruct (helper.TryCopy_loop attempt Sleep fuel trys (retryTimes + 1) err st2)
        as [[evs res] st3].
      unfold helper.result, helper.events in *. cbn [fst snd] in *.
      destruct IH as (Hbound & Hcases).
      assert (Hsucc : Z.to_nat (trys + 1 - retryTimes)
                      = S (Z.to_nat (trys + 1 - (retryTimes + 1)))).
      { replace (trys + 1 - retryTimes) with (Z.succ (trys + 1 - (retryTimes + 1))) by lia.
        now rewrite Z2Nat.inj_succ by lia. }
      rewrite attempts_app_attempted by exact Hq1. split; [lia|].
      destruct Hcases as [(Hres & evs0 & Hev & Hno) | (Hres & Hno & Hatt)].
      * left. split; [exact Hres|].
        exists (slept ++ helper.Attempted (Some e) :: evs0). split.
        -- rewrite Hev, <- app_assoc. reflexivity.
        -- now rewrite existsb_success_app_attempted by exact Hq2.
      * right. split; [|split].
        -- rewrite Hres. do 3 f_equal. lia.
        -- now rewrite existsb_success_app_attempted by exact Hq2.
        -- lia.
    + unfold helper.result, helper.events. cbn [fst snd].
      rewrite attempts_app_attempted by exact Hq1. split; [simpl; lia|].
      left. split; [reflexivity|]. now exists slept.
  - cbv zeta. cbn [helper.TryCopy_loop]. rewrite gtb_true by lia.
    unfold helper.result, helper.events. cbn [fst snd]. split; [simpl; lia|].
    right. split; [|split]; [do 3 f_equal; lia | reflexivity |].
    simpl. lia.
Qed.

(** X5: [TryCopy] ends.  Followed for more than [trys + 1] iterations it
    has returned, after at most [trys + 1] attempts (none when [trys] is
    negative): either [nil], right after the first attempt that succeeded, or
    an [ErrTimes] whose [times] is the number of attempts it made, all of
    which failed. *)
Theorem TryCopy_returns_within_trys_plus_one (trys : Z) (fuel : nat) (st : St) :
  trys + 1 < 2 ^ 63 ->
  (Z.to_nat (trys + 1) < fuel)%nat ->
  let run := helper.TryCopy_loop attempt Sleep fuel trys 0 None st in
  (helper.attempts (helper.events run) <= Z.to_nat (trys + 1))%nat
  /\ ((helper.result run = helper.Returned None
       /\ exists evs, helper.events run = evs ++ [helper.Attempted None]
                      /\ existsb helper.is_success evs = false)
      \/ (helper.result run = helper.Returned (Some (ErrTimes None (Z.max 0 (trys + 1))))
          /\ existsb helper.is_success (helper.events run) = false
          /\ Z.of_nat (helper.attempts (helper.events run)) = Z.max 0 (trys + 1))).
Proof.
  intros Htrys Hfuel.
  pose proof (TryCopy_loop_outcome trys None Htrys fuel 0 st ltac:(lia)) as H.
  rewrite Z.sub_0_r in H. specialize (H Hfuel). cbv zeta in *.
  destruct H as (Hbound & [Hok | (Hres & Hno & Hatt)]).
  - split; [exact Hbound | left; exact Hok].
  - split; [exact Hbound | right]. repeat split; auto.
    rewrite Hatt. lia.
Qed.

Lemma TryCopy_error_shape (fuel : nat) :
  forall trys retryTimes err st e,
    helper.result (helper.TryCopy_loop attempt Sleep fuel trys retryTimes err st)
    = helper.Returned (Some e) ->
    exists n, e = ErrTimes err n.
Proof.
  induction fuel as [|fuel IH]; intros trys retryTimes err st e.
  - unfold helper.result. simpl. discriminate.
  - destruct (Z_le_gt_dec retryTimes trys) as [Hle | Hgt].
    + rewrite TryCopy_loop_S by exact Hle. cbv zeta.
      destruct (attempt _) as [[e'|] st2].
      * specialize (IH trys (wrap64 (retryTimes + 1)) err st2 e).
        destruct (helper.TryCopy_loop attempt Sleep fuel trys (wrap64 (retryTimes + 1)) err st2)
          as [[evs res] st3].
        unfold helper.result in *. cbn [fst snd] in *. exact IH.
      * unfold helper.result. cbn [fst snd]. discriminate.
    + cbn [helper.TryCopy_loop]. rewrite gtb_true by lia.
      unfold helper.result. cbn [fst snd]. intros H; inversion H. now exists retryTimes.
Qed.

(** X6: whatever error [TryCopy] returns, asking it for its message panics:
    it is an [ErrTimes] whose [err] is [nil], whatever [trys] was and however
    the attempts failed. *)
Theorem TryCopy_error_cannot_be_printed (fuel : nat) (trys : Z) (st : St) (e : error) :
  helper.result (helper.TryCopy_loop attempt Sleep fuel trys 0 None st)
  = helper.Returned (Some e) ->
  helper.Error e = None.
Proof.
  intros H. destruct (TryCopy_error_shape fuel trys 0 None st e H) as (n & ->).
  reflexivity.
Qed.

(** *** The time slept *)

Lemma total_slept_pause_attempted (d : option Z) (st : St) (r : option error)
    (evs : list helper.retry_event) :
  observe.total_slept (fst (helper.pause Sleep d st) ++ helper.Attempted r :: evs)
  = helper.pause_length d + observe.total_slept evs.
Proof.
  destruct d; reflexivity.
Qed.

Lemma TryCopy_pause_length (trys retryTimes : Z) :
  0 <= retryTimes <= trys ->
  trys * time_Second < 2 ^ 63 ->
  helper.pause_length (helper.TryCopy_pause retryTimes) = retryTimes * time_Second.
Proof.
  intros Hrt Hsec. unfold helper.TryCopy_pause.
  destruct (Z.eq_dec retryTimes 0) as [-> | Hne].
  - reflexivity.
  - rewrite gtb_true by lia. cbn [helper.pause_length].
    apply wrap64_id. unfold int64_range, time_Second in *. nia.
Qed.

Lemma TryCopy_total_slept_bound (trys : Z) (err : option error) :
  trys + 1 < 2 ^ 63 ->
  trys * time_Second < 2 ^ 63 ->
  forall fuel retryTimes st,
    0 <= retryTimes <= trys + 1 ->
    let evs := helper.events (helper.TryCopy_loop attempt Sleep fuel trys retryTimes err st) in
    0 <= 2 * observe.total_slept evs
      <= (trys * (trys + 1) - retryTimes * (retryTimes - 1)) * time_Second.
Proof.
  intros Htrys Hsec. induction fuel as [|fuel IH]; intros retryTimes st Hrt;
    pose proof (triangle_mono retryTimes trys Hrt) as Htri.
  - unfold helper.events. simpl. unfold time_Second. nia.
  - destruct (Z_le_gt_dec retryTimes trys) as [Hle | Hgt].
    + cbv zeta. rewrite TryCopy_loop_S by exact Hle. cbv zeta.
      pose proof (TryCopy_pause_length trys retryTimes ltac:(lia) Hsec) as Hlen.
      destruct (attempt _) as [[e|] st2].
      * rewrite wrap64_id by (unfold int64_range; lia).
        specialize (IH (retryTimes + 1) st2 ltac:(lia)). cbv zeta in IH.
        destruct (helper.TryCopy_loop attempt Sleep fuel trys (retryTimes + 1) err st2)
          as [[evs res] st3].
        unfold helper.events in *. cbn [fst snd] in *.
        rewrite total_slept_pause_attempted, Hlen. unfold time_Second in *. nia.
      * unfold helper.events. cbn [fst snd].
        rewrite total_slept_pause_attempted, Hlen. simpl observe.total_slept.
        unfold time_Second in *. nia.
    + cbv zeta. cbn [helper.TryCopy_loop]. rewrite gtb_true by lia.
      unfold helper.events. simpl. unfold time_Second. nia.
Qed.

Lemma TryCopy_total_slept_always_failing (trys : Z) (err : option error) :
  helper.always_fails attempt ->
  trys + 1 < 2 ^ 63 ->
  trys * time_Second < 2 ^ 63 ->
  forall fuel retryTimes st,
    0 <= retryTimes <= trys + 1 ->
    (Z.to_nat (trys + 1 - retryTimes) < fuel)%nat ->
    let evs := helper.events (helper.TryCopy_loop attempt Sleep fuel trys retryTimes err st) in
    2 * observe.total_slept evs
    = (trys * (trys + 1) - retryTimes * (retryTimes - 1)) * time_Second.
Proof.
  intros Hfail Htrys Hsec. induction fuel as [|fuel IH]; intros retryTimes st Hrt Hfuel; [lia|].
  destruct (Z_le_gt_dec retryTimes trys) as [Hle | Hgt].
  - cbv zeta. rewrite TryCopy_loop_S by exact Hle. cbv zeta.
    pose proof (TryCopy_pause_length trys retryTimes ltac:(lia) Hsec) as Hlen.
    match goal with |- context [attempt ?x] => pose proof (Hfail x) as Hf end.
    destruct (attempt _) as [[e|] st2]; [|now elim Hf].
    rewrite wrap64_id by (unfold int64_range; lia).
    specialize (IH (retryTimes + 1) st2 ltac:(lia) ltac:(lia)). cbv zeta in IH.
    destruct (helper.TryCopy_loop attempt Sleep fuel trys (retryTimes + 1) err st2)
      as [[evs res] st3].
    unfold helper.events in *. cbn [fst snd] in *.
    rewrite total_slept_pause_attempted, Hlen. lia.
  - cbv zeta. cbn [helper.TryCopy_loop]. rewrite gtb_true by lia.
    unfold helper.events. simpl. assert (retryTimes = trys + 1) by lia. subst. lia.
Qed.

(** X7: the time [TryCopy] spends sleeping.  For [trys >= 0] it is at most
    [trys * (trys + 1) / 2] seconds, whatever the attempts do, and exactly
    that when every attempt fails. *)
Theorem TryCopy_sleeps_at_most_triangular (trys : Z) (fuel : nat) (st : St) :
  0 <= trys ->
  trys * time_Second < 2 ^ 63 ->
  let evs := helper.events (helper.TryCopy_loop attempt Sleep fuel trys 0 None st) in
  0 <= 2 * observe.total_slept evs <= trys * (trys + 1) * time_Second
  /\ (helper.always_fails attempt ->
      (Z.to_nat (trys + 1) < fuel)%nat ->
      2 * observe.total_slept evs = trys * (trys + 1) * time_Second).
Proof.
  intros Htrys Hsec.
  assert (Hlt : trys + 1 < 2 ^ 63) by (unfold time_Second in Hsec; lia).
  cbv zeta. split.
  - pose proof (TryCopy_total_slept_bound trys None Hlt Hsec fuel 0 st ltac:(lia)) as H.
    cbv zeta in H. lia.
  - intros Hfail Hfuel.
    pose proof (TryCopy_total_slept_always_failing trys None Hfail Hlt Hsec fuel 0 st
                  ltac:(lia)) as H.
    rewrite Z.sub_0_r in H. specialize (H Hfuel). cbv zeta in H. lia.
Qed.

(** *** What the loops keep *)

Lemma MustCopy_loop_keeps (I : St -> Prop) :
  (forall st, I st -> I (snd (attempt st))) ->
  (forall d st, I st -> I (Sleep d st)) ->
  forall fuel retryTimes st,
    I st -> I (snd (helper.MustCopy_loop attempt Sleep fuel retryTimes st)).
Proof.
  intros Hatt Hsleep. induction fuel as [|fuel IH]; intros retryTimes st Hst.
  - exact Hst.
  - rewrite MustCopy_loop_S. cbv zeta.
    assert (H1 : I (snd (helper.pause Sleep (helper.MustCopy_pause retryTimes) st)))
      by (destruct (helper.MustCopy_pause retryTimes); simpl; auto).
    specialize (Hatt _ H1).
    destruct (attempt _) as [[e|] st2]; simpl in Hatt; [|exact Hatt].
    specialize (IH (wrap64 (retryTimes + 1)) st2 Hatt).
    now destruct (helper.MustCopy_loop attempt Sleep fuel (wrap64 (retryTimes + 1)) st2)
      as [[evs res] st3].
Qed.

Lemma TryCopy_loop_keeps (I : St -> Prop) :
  (forall st, I st -> I (snd (attempt st))) ->
  (forall d st, I st -> I (Sleep d st)) ->
  forall fuel trys retryTimes err st,
    I st -> I (snd (helper.TryCopy_loop attempt Sleep fuel trys retryTimes err st)).
Proof.
  intros Hatt Hsleep. induction fuel as [|fuel IH]; intros trys retryTimes err st Hst.
  - exact Hst.
  - destruct (Z_le_gt_dec retryTimes trys) as [Hle | Hgt].
    + rewrite TryCopy_loop_S by exact Hle. cbv zeta.
      assert (H1 : I (snd (helper.pause Sleep (helper.TryCopy_pause retryTimes) st)))
        by (destruct (helper.TryCopy_pause retryTimes); simpl; auto).
      specialize (Hatt _ H1).
      destruct (attempt _) as [[e|] st2]; simpl in Hatt; [|exact Hatt].
      specialize (IH trys (wrap64 (retryTimes + 1)) err st2 Hatt).
      now destruct (helper.TryCopy_loop attempt Sleep fuel trys (wrap64 (retryTimes + 1)) err st2)
        as [[evs res] st3].
    + cbn [helper.TryCopy_loop]. rewrite gtb_true by lia. exact Hst.
Qed.

End RetryMore.

(** ** The control line is unambiguous *)

Lemma digit_not_space (d : Z) : 0 <= d < 10 -> fmt.digit d <> " "%char.
Proof.
  intros Hd H. apply (f_equal N_of_ascii) in H. unfold fmt.digit in H.
  rewrite N_ascii_embedding in H by lia.
  change (N_of_ascii " "%char) with 32%N in H. lia.
Qed.

Lemma no_space_String (c : ascii) (s : string) :
  c <> " "%char -> observe.no_space s -> observe.no_space (String c s).
Proof.
  intros Hc Hs c' [<- | Hin]; [exact Hc | now apply Hs].
Qed.

Lemma no_space_tail (c : ascii) (s : string) :
  observe.no_space (String c s) -> c <> " "%char /\ observe.no_space s.
Proof.
  intros H. split; [apply H; now left | intros c' Hin; apply H; now right].
Qed.

Lemma fmt_loop_no_space (base : Z) (fuel : nat) :
  2 <= base <= 10 ->
  forall u buf, 0 <= u < base ^ (Z.of_nat fuel + 1) ->
  observe.no_space buf -> observe.no_space (fmt.fmt_loop fuel base u buf).
Proof.
  intros Hb. induction fuel as [|fuel IH]; intros u buf Hu Hbuf.
  - change (base ^ (Z.of_nat 0 + 1)) with (base ^ 1) in Hu. rewrite Z.pow_1_r in Hu.
    simpl. apply no_space_String; [apply digit_not_space; lia | exact Hbuf].
  - simpl fmt.fmt_loop. destruct (base <=? u) eqn:E.
    + apply Z.leb_le in E. apply IH.
      * split; [apply Z.div_pos; lia|].
        apply Z.div_lt_upper_bound; [lia|].
        replace (Z.of_nat (S fuel) + 1) with (Z.succ (Z.of_nat fuel + 1)) in Hu by lia.
        rewrite Z.pow_succ_r in Hu by lia. lia.
      * apply no_space_String; [|exact Hbuf].
        apply digit_not_space. pose proof (Z.mod_pos_bound u base ltac:(lia)). lia.
    + apply Z.leb_gt in E. apply no_space_String; [apply digit_not_space; lia | exact Hbuf].
Qed.

Lemma fmt_unsigned_no_space (base u : Z) :
  2 <= base <= 10 -> 0 <= u < 2 ^ 64 -> observe.no_space (fmt.fmt_unsigned base u).
Proof.
  intros Hb Hu. unfold fmt.fmt_unsigned. apply fmt_loop_no_space; [exact Hb | |].
  - split; [lia|]. apply Z.lt_le_trans with (2 ^ 65); [lia|].
    apply Z.pow_le_mono_l. lia.
  - intros c [].
Qed.

Lemma fmt_sharp_o_no_space (mode : Z) :
  0 <= mode < 2 ^ 32 -> observe.no_space (fmt.fmt_sharp_o mode).
Proof.
  intros H. pose proof (fmt_unsigned_no_space 8 mode ltac:(lia) ltac:(lia)) as Hs.
  unfold fmt.fmt_sharp_o. destruct (fmt.fmt_unsigned 8 mode) as [|c rest];
    [apply no_space_String; [discriminate | exact Hs]|].
  assert (H0 : observe.no_space (String "0" (String c rest)))
    by (apply no_space_String; [discriminate | exact Hs]).
  destruct c as [[] [] [] [] [] [] [] []]; solve [exact H0 | exact Hs].
Qed.

Lemma fmt_d_no_space (size : Z) :
  0 <= size < 2 ^ 63 -> observe.no_space (fmt.fmt_d size).
Proof.
  intros H. unfold fmt.fmt_d.
  destruct (size <? 0) eqn:E; [apply Z.ltb_lt in E; lia|].
  apply fmt_unsigned_no_space; lia.
Qed.

Lemma split_at_first_space (a : string) :
  forall a' x x',
    observe.no_space a -> observe.no_space a' ->
    (a ++ String " " x)%string = (a' ++ String " " x')%string ->
    a = a' /\ x = x'.
Proof.
  induction a as [|c a IH]; intros [|c' a'] x x' Ha Ha' Heq; simpl in Heq.
  - inversion Heq. auto.
  - inversion Heq; subst. destruct (no_space_tail _ _ Ha') as (Hc & _). now elim Hc.
  - inversion Heq; subst. destruct (no_space_tail _ _ Ha) as (Hc & _). now elim Hc.
  - inversion Heq; subst.
    destruct (no_space_tail _ _ Ha) as (_ & Ha0).
    destruct (no_space_tail _ _ Ha') as (_ & Ha0').
    destruct (IH a' x x' Ha0 Ha0' H1) as (-> & ->). auto.
Qed.

Lemma append_one_inj (a : string) :
  forall a' c, (a ++ String c "")%string = (a' ++ String c "")%string -> a = a'.
Proof.
  induction a as [|x a IH]; intros [|x' a'] c Heq; simpl in Heq.
  - reflexivity.
  - inversion Heq. destruct a'; discriminate.
  - inversion Heq. destruct a; discriminate.
  - inversion Heq; subst. f_equal. now apply (IH a' c).
Qed.

(** X9: the control line tells the mode, the size and the name apart: two
    lines that are equal were made from the same mode, size and file name
    (the name may hold spaces and line feeds). *)
Theorem control_line_injective (mode mode' size size' : Z) (fileName fileName' : string) :
  0 <= mode < 2 ^ 32 -> 0 <= mode' < 2 ^ 32 ->
  0 <= size < 2 ^ 63 -> 0 <= size' < 2 ^ 63 ->
  scp.control_line mode size fileName = scp.control_line mode' size' fileName' ->
  mode = mode' /\ size = size' /\ fileName = fileName'.
Proof.
  intros Hm Hm' Hs Hs' Heq. unfold scp.control_line in Heq. simpl in Heq.
  inversion Heq as [Hrest]. clear Heq.
  apply split_at_first_space in Hrest; auto using fmt_sharp_o_no_space.
  destruct Hrest as (Hmode & Hrest).
  apply split_at_first_space in Hrest; auto using fmt_d_no_space.
  destruct Hrest as (Hsize & Hname).
  apply append_one_inj in Hname.
  destruct (parse_fmt_sharp_o mode Hm) as (Hp & _).
  destruct (parse_fmt_sharp_o mode' Hm') as (Hp' & _).
  pose proof (parse_fmt_d size Hs) as Hd. pose proof (parse_fmt_d size' Hs') as Hd'.
  rewrite Hmode in Hp. rewrite Hsize in Hd.
  repeat split; congruence.
Qed.

(** ** Pipes that break *)

Lemma io_Copy_room (src : io.Reader) :
  forall dst n, io.room dst = Some n -> io.closed dst = false ->
  exists rest e,
    io.Copy dst src
    = (io.mkPipe (io.sent dst ++ firstn n (io.contents_of src))
         (Some (n - List.length (io.contents_of src))%nat) false, rest, e).
Proof.
  induction src as [|[b er] src IH]; intros dst n Hr Hc.
  - exists [], None. simpl. rewrite firstn_nil, app_nil_r, Nat.sub_0_r.
    destruct dst; simpl in *; now subst.
  - destruct b as [|x b].
    + cbn [io.Copy]. destruct er as [e|].
      * exists src. cbn [io.contents_of]. rewrite firstn_nil, app_nil_r, Nat.sub_0_r.
        destruct dst; simpl in *; subst. destruct e; eexists; reflexivity.
      * cbn [io.contents_of app]. now apply IH.
    + cbn [io.Copy]. unfold io.Write. rewrite Hc, Hr.
      destruct (List.length (x :: b) <=? n)%nat eqn:E.
      * apply Nat.leb_le in E. destruct er as [e|].
        -- exists src. cbn [io.contents_of].
           rewrite (firstn_all2 (x :: b)) by exact E.
           destruct e; eexists; reflexivity.
        -- destruct (IH (io.mkPipe (io.sent dst ++ x :: b)
                           (Some (n - List.length (x :: b))%nat) false)
                        (n - List.length (x :: b))%nat eq_refl eq_refl)
             as (rest & e & Heq).
           exists rest, e. rewrite Heq. cbn [io.contents_of io.sent].
           rewrite firstn_app, (firstn_all2 (x :: b)) by exact E.
           rewrite <- app_assoc, length_app, Nat.sub_add_distr. reflexivity.
      * apply Nat.leb_gt in E. exists src, (Some io_ErrClosedPipe). do 2 f_equal.
        assert (Hcut : forall tail, firstn n ((x :: b) ++ tail) = firstn n (x :: b)).
        { intros tail. rewrite firstn_app.
          replace (n - List.length (x :: b))%nat with O by lia.
          now rewrite firstn_O, app_nil_r. }
        destruct er as [e|]; cbn [io.contents_of].
        -- f_equal. f_equal. lia.
        -- rewrite Hcut, length_app. f_equal. f_equal. lia.
Qed.

Lemma copy_writer_room (size mode : Z) (fileName : string) (contents : io.Reader)
    (room : option nat) :
  io.sent (fst (scp.copy_writer size mode fileName contents (io.new_pipe room)))
  = observe.take_room room
      (bytes_of (scp.control_line mode size fileName) ++ io.contents_of contents ++ [x00]).
Proof.
  destruct room as [n|]; [|apply copy_writer_sent].
  unfold scp.copy_writer, observe.take_room.
  set (line := bytes_of (scp.control_line mode size fileName)).
  assert (Hw : forall p k b, io.room p = Some k -> io.closed p = false ->
                 exists e, io.Write p b
                           = (io.mkPipe (io.sent p ++ firstn k b)
                                (Some (k - List.length b)%nat) false, e)).
  { intros p k b Hr Hc. unfold io.Write. rewrite Hc, Hr.
    destruct (List.length b <=? k)%nat eqn:E.
    - apply Nat.leb_le in E. rewrite firstn_all2 by exact E. eexists; reflexivity.
    - apply Nat.leb_gt in E. replace (k - List.length b)%nat with O by lia.
      eexists; reflexivity. }
  destruct (Hw (io.new_pipe (Some n)) n line eq_refl eq_refl) as (e1 & H1). rewrite H1.
  match goal with
  | |- context [io.Copy ?p contents] =>
      destruct (io_Copy_room contents p _ eq_refl eq_refl) as (rest & e2 & H2)
  end.
  rewrite H2.
  match goal with
  | |- context [io.Write ?p [x00]] =>
      destruct (Hw p _ [x00] eq_refl eq_refl) as (e3 & H3)
  end.
  rewrite H3. cbn [fst io.sent io.Close io.new_pipe app].
  rewrite !firstn_app, <- app_assoc. reflexivity.
Qed.

Lemma commands_run_app {P : Platform} (a b : list event) :
  commands_run (a ++ b) = commands_run a ++ commands_run b.
Proof.
  induction a as [|ev a IH]; [reflexivity|].
  destruct ev; simpl; now rewrite IH.
Qed.

(** ** One transfer, on every path *)

Section TransferFacts.

Context {P : Platform}.

Ltac run_monad := unfold bind, call, call_, exec, ret in *.

Lemma copy_run_outcome (size mode : Z) (fileName : string) (contents : io.Reader)
    (destination : string) (session : Session) (flags : string) (st : Sys) :
  let stdin := observe.fed size mode fileName contents session st in
  let cmd := ("scp " ++ flags ++ " -t " ++ destination)%string in
  let rest := snd (scp.copy_writer size mode fileName contents
                     (io.new_pipe (Session_stdin_room session (world st)))) in
  scp.copy size mode fileName contents destination session flags st
  = (fst (Session_Run session cmd stdin (world st)), rest,
     mkSys (Session_Close session (snd (Session_Run session cmd stdin (world st))))
       (trace st ++ [EvRun session cmd stdin; EvSessionClose session])).
Proof.
  cbv zeta. unfold observe.fed, scp.copy.
  pose proof (copy_writer_room size mode fileName contents
                (Session_stdin_room session (world st))) as Hs.
  destruct (scp.copy_writer _ _ _ _ _) as [w rest]. cbn [fst snd] in *. rewrite Hs.
  run_monad. destruct (Session_Run _ _ _ _) as [e w']. cbn [fst snd world trace].
  now rewrite <- app_assoc.
Qed.

(** X10: on a session whose standard input pipe takes every write,
    [copy] returns what the remote command returns and nothing else.  The
    command is fed the control line, every byte the contents deliver up to
    their first error, whatever [size] says, and the zero byte; neither a
    source shorter or longer than [size] nor a failed read shows in the
    result, and the session is closed on the way out. *)
Theorem copy_returns_the_command_result
    (size mode : Z) (fileName : string) (contents : io.Reader)
    (destination : string) (session : Session) (flags : string) (st : Sys) :
  Session_stdin_room session (world st) = None ->
  let stdin :=
    bytes_of (scp.control_line mode size fileName) ++ io.contents_of contents ++ [x00] in
  let cmd := ("scp " ++ flags ++ " -t " ++ destination)%string in
  let done := scp.copy size mode fileName contents destination session flags st in
  fst (fst done) = fst (Session_Run session cmd stdin (world st))
  /\ trace (snd done) = trace st ++ [EvRun session cmd stdin; EvSessionClose session]
  /\ world (snd done)
     = Session_Close session (snd (Session_Run session cmd stdin (world st))).
Proof.
  intros Hroom. cbv zeta.
  pose proof (copy_run_outcome size mode fileName contents destination session flags st)
    as Heq.
  cbv zeta in Heq. unfold observe.fed in Heq. rewrite Hroom in Heq.
  cbn [observe.take_room] in Heq. rewrite Heq. repeat split.
Qed.

(** *** The four ways through the helper's [Copy] *)

Lemma Copy_no_session (s s' : helper.scpHelperDelegate) (r : io.Reader) (size : Z)
    (dstfile : string) (e : error) (st st1 : Sys) :
  helper.newSession s st = (inl e, s', st1) ->
  helper.Copy s r size dstfile st = (Some e, s', r, st1).
Proof.
  intros Hnew. unfold helper.Copy, bind at 1. now rewrite Hnew.
Qed.

Lemma Copy_plain_outcome (s s' : helper.scpHelperDelegate) (r : io.Reader) (size : Z)
    (dstfile : string) (session : Session) (st st1 : Sys) :
  helper.gzip s = false ->
  helper.newSession s st = (inr session, s', st1) ->
  let stdin := observe.fed size os_ModePerm (filepath.Base dstfile) r session st1 in
  let cmd := ("scp " ++ helper.flags s ++ " -t " ++ filepath_Dir dstfile)%string in
  let rest := snd (scp.copy_writer size os_ModePerm (filepath.Base dstfile) r
                     (io.new_pipe (Session_stdin_room session (world st1)))) in
  helper.Copy s r size dstfile st
  = (fst (Session_Run session cmd stdin (world st1)), s', rest,
     mkSys (Session_Close session
              (Session_Close session (snd (Session_Run session cmd stdin (world st1)))))
       (trace st1 ++ [EvRun session cmd stdin; EvSessionClose session;
                      EvSessionClose session])).
Proof.
  intros Hgz Hnew. cbv zeta.
  destruct (newSession_keeps_settings _ _ _ _ _ Hnew) as (Hf & Hg & _).
  unfold helper.Copy, bind at 1. rewrite Hnew. rewrite Hg, Hgz, Hf.
  pose proof (copy_run_outcome size os_ModePerm (filepath.Base dstfile) r
                (filepath_Dir dstfile) session (helper.flags s) st1) as Heq.
  cbv zeta in Heq. unfold bind at 1. rewrite Heq.
  run_monad. cbn [world trace]. now rewrite <- app_assoc.
Qed.

Lemma Copy_gzip_outcome (s s' : helper.scpHelperDelegate) (r rest : io.Reader)
    (size size' : Z) (dstfile name : string) (cb : io.Reader) (session : Session)
    (st st1 : Sys) :
  helper.gzip s = true ->
  helper.newSession s st = (inr session, s', st1) ->
  helper.Copy_gzip (filepath.Base dstfile) r = (inr (name, cb, size'), rest) ->
  let stdin := observe.fed size' os_ModePerm name cb session st1 in
  let cmd := ("scp " ++ helper.flags s ++ " -t " ++ filepath_Dir dstfile)%string in
  helper.Copy s r size dstfile st
  = (fst (Session_Run session cmd stdin (world st1)), s', rest,
     mkSys (Session_Close session
              (Session_Close session (snd (Session_Run session cmd stdin (world st1)))))
       (trace st1 ++ [EvRun session cmd stdin; EvSessionClose session;
                      EvSessionClose session])).
Proof.
  intros Hgz Hnew Hcg. cbv zeta.
  destruct (newSession_keeps_settings _ _ _ _ _ Hnew) as (Hf & Hg & _).
  unfold helper.Copy, bind at 1. rewrite Hnew. rewrite Hg, Hgz, Hf, Hcg.
  pose proof (copy_run_outcome size' os_ModePerm name cb
                (filepath_Dir dstfile) session (helper.flags s) st1) as Heq.
  cbv zeta in Heq. unfold bind at 1. rewrite Heq.
  run_monad. cbn [world trace]. now rewrite <- app_assoc.
Qed.

Lemma Copy_gzip_read_error (s s' : helper.scpHelperDelegate) (r rest : io.Reader)
    (size : Z) (dstfile : string) (e : error) (session : Session) (st st1 : Sys) :
  helper.gzip s = true ->
  helper.newSession s st = (inr session, s', st1) ->
  helper.Copy_gzip (filepath.Base dstfile) r = (inl e, rest) ->
  helper.Copy s r size dstfile st
  = (Some e, s', rest,
     mkSys (Session_Close session (world st1)) (trace st1 ++ [EvSessionClose session])).
Proof.
  intros Hgz Hnew Hcg.
  destruct (newSession_keeps_settings _ _ _ _ _ Hnew) as (Hf & Hg & _).
  unfold helper.Copy, bind at 1. rewrite Hnew. rewrite Hg, Hgz, Hcg.
  reflexivity.
Qed.

(** X11: a session that [newSession] handed out is closed before [Copy]
    returns, on every path, after running at most one command on it; and when
    [newSession] fails, [Copy] returns that error and does nothing more: no
    command, no close, and the reader is not read. *)
Theorem Copy_always_closes_its_session
    (s s' : helper.scpHelperDelegate) (r : io.Reader) (size : Z) (dstfile : string)
    (st st1 : Sys) :
  (forall session,
     helper.newSession s st = (inr session, s', st1) ->
     exists evs,
       trace (snd (helper.Copy s r size dstfile st))
       = trace st1 ++ evs ++ [EvSessionClose session]
       /\ (List.length (commands_run evs) <= 1)%nat
       /\ Forall (fun ev => ev = EvSessionClose session
                            \/ exists cmd stdin, ev = EvRun session cmd stdin) evs)
  /\ (forall e,
        helper.newSession s st = (inl e, s', st1) ->
        helper.Copy s r size dstfile st = (Some e, s', r, st1)).
Proof.
  split.
  - intros session Hnew. destruct (helper.gzip s) eqn:Hgz.
    + destruct (helper.Copy_gzip (filepath.Base dstfile) r) as [[e | [[name cb] size']] rest]
        eqn:Hcg.
      * rewrite (Copy_gzip_read_error s s' r rest size dstfile e session st st1 Hgz Hnew Hcg).
        exists []. cbn [snd trace app]. repeat split; auto.
      * rewrite (Copy_gzip_outcome s s' r rest size size' dstfile name cb session st st1
                   Hgz Hnew Hcg).
        eexists [EvRun session _ _; EvSessionClose session]. cbn [snd trace].
        split; [reflexivity|]. split; [simpl; lia|].
        constructor; [right; eauto | constructor; [left; reflexivity | constructor]].
    + pose proof (Copy_plain_outcome s s' r size dstfile session st st1 Hgz Hnew) as Heq.
      cbv zeta in Heq. rewrite Heq. eexists [EvRun session _ _; EvSessionClose session]. cbn [snd trace].
      split; [reflexivity|]. split; [simpl; lia|].
      constructor; [right; eauto | constructor; [left; reflexivity | constructor]].
  - intros e Hnew. now apply Copy_no_session.
Qed.

(** *** Errors of the source *)

Lemma gzip_loop_outcome (r : io.Reader) :
  forall w,
    exists rest,
      helper.gzip_loop w r
      = (if observe.is_EOF (observe.first_error r)
         then inr (fold_left gzip_Write (io.chunks r) w)
         else inl (observe.first_error r), rest).
Proof.
  induction r as [|[b [e|]] r IH]; intros w; simpl.
  - now exists [].
  - exists r. now destruct e.
  - apply IH.
Qed.

(** X12: how an error of the source is treated depends on the gzip
    setting.  With gzip on, a read error other than [io.EOF] is returned by
    [Copy] and no command is run; with gzip off, [Copy] returns what the
    command returns, the read error is lost, and the command has been fed
    the bytes read before the error as if they were the whole file. *)
Theorem Copy_read_error_reported_only_with_gzip
    (s s' : helper.scpHelperDelegate) (r : io.Reader) (size : Z) (dstfile : string)
    (session : Session) (st st1 : Sys) :
  helper.newSession s st = (inr session, s', st1) ->
  observe.is_EOF (observe.first_error r) = false ->
  (helper.gzip s = true ->
   fst (fst (fst (helper.Copy s r size dstfile st))) = Some (observe.first_error r)
   /\ commands_run (trace (snd (helper.Copy s r size dstfile st)))
      = commands_run (trace st1))
  /\ (helper.gzip s = false ->
      let stdin :=
        observe.take_room (Session_stdin_room session (world st1))
          (bytes_of (scp.control_line os_ModePerm size (filepath.Base dstfile))
           ++ io.contents_of r ++ [x00]) in
      let cmd := ("scp " ++ helper.flags s ++ " -t " ++ filepath_Dir dstfile)%string in
      fst (fst (fst (helper.Copy s r size dstfile st)))
      = fst (Session_Run session cmd stdin (world st1))
      /\ commands_run (trace (snd (helper.Copy s r size dstfile st)))
         = commands_run (trace st1) ++ [(cmd, stdin)]).
Proof.
  intros Hnew Herr.
  pose proof (gzip_loop_outcome r gzip_NewWriter) as (rest & Hloop).
  rewrite Herr in Hloop. split.
  - intros Hgz.
    assert (Hcg : helper.Copy_gzip (filepath.Base dstfile) r
                  = (inl (observe.first_error r), rest))
      by (unfold helper.Copy_gzip; now rewrite Hloop).
    rewrite (Copy_gzip_read_error s s' r rest size dstfile _ session st st1 Hgz Hnew Hcg).
    cbn [fst snd trace]. split; [reflexivity|].
    rewrite commands_run_app. simpl. now rewrite app_nil_r.
  - intros Hgz. cbv zeta.
    pose proof (Copy_plain_outcome s s' r size dstfile session st st1 Hgz Hnew) as Heq.
    cbv zeta in Heq. unfold observe.fed in Heq. rewrite Heq. cbn [fst snd trace].
    split; [reflexivity|]. rewrite commands_run_app. reflexivity.
Qed.

(** *** Sending the same reader again *)

Lemma io_Copy_error_free (src : io.Reader) :
  forall dst, observe.error_free src = true ->
  io.room dst = None -> io.closed dst = false ->
  snd (fst (io.Copy dst src)) = [].
Proof.
  induction src as [|[b [e|]] src IH]; intros dst Hfree Hr Hc; simpl in *.
  - reflexivity.
  - discriminate.
  - destruct b as [|x b].
    + now apply IH.
    + rewrite Write_open by assumption. now apply IH.
Qed.

Lemma copy_writer_rest_error_free (size mode : Z) (fileName : string)
    (contents : io.Reader) :
  observe.error_free contents = true ->
  snd (scp.copy_writer size mode fileName contents (io.new_pipe None)) = [].
Proof.
  intros Hfree. unfold scp.copy_writer.
  rewrite (Write_open (io.new_pipe None)) by reflexivity.
  match goal with
  | |- context [io.Copy ?p contents] =>
      pose proof (io_Copy_error_free contents p Hfree eq_refl eq_refl) as Hrest;
      destruct (io.Copy p contents) as [[w rest] e]
  end.
  cbn [fst snd] in Hrest. subst rest. now destruct (io.Write w [x00]).
Qed.

(** X13: the reader is not rewound between attempts.  After one [Copy]
    (gzip off, a pipe that takes everything) of a reader that delivers its
    bytes without error, nothing is left in the reader, so a second [Copy]
    of it, as the retry loops do, announces the same [size] and sends no
    byte of the file. *)
Theorem Copy_again_sends_an_empty_body
    (s s1 : helper.scpHelperDelegate) (r : io.Reader) (size : Z) (dstfile : string)
    (sess1 : Session) (st st1 : Sys) :
  helper.gzip s = false ->
  observe.error_free r = true ->
  helper.newSession s st = (inr sess1, s1, st1) ->
  Session_stdin_room sess1 (world st1) = None ->
  let first := helper.Copy s r size dstfile st in
  snd (fst first) = []
  /\ snd (fst (fst first)) = s1
  /\ forall sess2 s2 st3,
       helper.newSession s1 (snd first) = (inr sess2, s2, st3) ->
       Session_stdin_room sess2 (world st3) = None ->
       commands_run (trace (snd (helper.Copy s1 (snd (fst first)) size dstfile (snd first))))
       = commands_run (trace st3)
         ++ [(("scp " ++ helper.flags s ++ " -t " ++ filepath_Dir dstfile)%string,
              bytes_of (scp.control_line os_ModePerm size (filepath.Base dstfile))
              ++ [x00])].
Proof.
  intros Hgz Hfree Hnew Hroom. cbv zeta.
  pose proof (Copy_plain_outcome s s1 r size dstfile sess1 st st1 Hgz Hnew) as Heq.
  cbv zeta in Heq. rewrite Hroom in Heq.
  rewrite copy_writer_rest_error_free in Heq by exact Hfree.
  rewrite Heq. cbn [fst snd]. split; [reflexivity | split; [reflexivity|]].
  intros sess2 s2 st3 Hnew2 Hroom2.
  destruct (newSession_keeps_settings _ _ _ _ _ Hnew) as (Hf & Hg & _).
  pose proof (Copy_plain_outcome s1 s2 [] size dstfile sess2 _ st3
                ltac:(now rewrite Hg) Hnew2) as Heq2.
  cbv zeta in Heq2. rewrite Heq2. cbn [fst snd trace].
  rewrite commands_run_app, Hf. f_equal.
  unfold observe.fed. rewrite Hroom2. reflexivity.
Qed.

(** *** The gzip branch when the source reads to its end *)

Lemma contents_of_Buffer (b : list byte) : io.contents_of (io.Buffer b) = b.
Proof.
  destruct b; simpl; [reflexivity | now rewrite app_nil_r].
Qed.

(** X14: with gzip on and a source that reads to [io.EOF], the command is
    fed a control line with mode 0777, the length of the compressed bytes
    (the [size] argument is not used) and the base name with [.gz] appended,
    then the compressed bytes, then the zero byte; the compressed bytes are
    what the writer holds after the chunks read without error were written
    to it in order and it was flushed. *)
Theorem Copy_gzip_envelope
    (s s' : helper.scpHelperDelegate) (r : io.Reader) (size : Z) (dstfile : string)
    (session : Session) (st st1 : Sys) :
  helper.gzip s = true ->
  helper.newSession s st = (inr session, s', st1) ->
  Session_stdin_room session (world st1) = None ->
  observe.is_EOF (observe.first_error r) = true ->
  let payload :=
    gzip_Bytes (gzip_Flush (fold_left gzip_Write (io.chunks r) gzip_NewWriter)) in
  trace (snd (helper.Copy s r size dstfile st))
  = trace st1
    ++ [EvRun session ("scp " ++ helper.flags s ++ " -t " ++ filepath_Dir dstfile)%string
          (bytes_of (scp.control_line os_ModePerm (Z.of_nat (List.length payload))
                       (filepath.Base dstfile ++ ".gz")%string)
           ++ payload ++ [x00]);
        EvSessionClose session;
        EvSessionClose session].
Proof.
  intros Hgz Hnew Hroom Heof. cbv zeta.
  pose proof (gzip_loop_outcome r gzip_NewWriter) as (rest & Hloop).
  rewrite Heof in Hloop.
  assert (Hcg : helper.Copy_gzip (filepath.Base dstfile) r
                = (inr ((filepath.Base dstfile ++ ".gz")%string,
                        io.Buffer (gzip_Bytes (gzip_Flush
                                     (fold_left gzip_Write (io.chunks r) gzip_NewWriter))),
                        Z.of_nat (List.length
                                    (gzip_Bytes (gzip_Flush
                                       (fold_left gzip_Write (io.chunks r) gzip_NewWriter))))),
                   rest))
    by (unfold helper.Copy_gzip; now rewrite Hloop).
  rewrite (Copy_gzip_outcome s s' r rest size _ dstfile _ _ session st st1 Hgz Hnew Hcg).
  cbn [snd trace]. unfold observe.fed. rewrite Hroom, contents_of_Buffer. reflexivity.
Qed.

(** *** What a transfer leaves of the helper *)

Lemma Copy_keeps_settings (s : helper.scpHelperDelegate) (r : io.Reader) (size : Z)
    (dstfile : string) (st : Sys) :
  observe.same_settings s (snd (fst (fst (helper.Copy s r size dstfile st)))).
Proof.
  destruct (helper.newSession s st) as [[[e|session] s'] st1] eqn:Hnew;
    destruct (newSession_keeps_settings _ _ _ _ _ Hnew) as (Hf & Hg & Hd).
  - rewrite (Copy_no_session s s' r size dstfile e st st1 Hnew). unfold observe.same_settings; cbn [fst snd]; repeat split; congruence.
  - destruct (helper.gzip s) eqn:Hgz.
    + destruct (helper.Copy_gzip (filepath.Base dstfile) r) as [[e | [[name cb] size']] rest]
        eqn:Hcg.
      * rewrite (Copy_gzip_read_error s s' r rest size dstfile e session st st1 Hgz Hnew Hcg).
        unfold observe.same_settings; cbn [fst snd]; repeat split; congruence.
      * rewrite (Copy_gzip_outcome s s' r rest size size' dstfile name cb session st st1
                   Hgz Hnew Hcg).
        unfold observe.same_settings; cbn [fst snd]; repeat split; congruence.
    + pose proof (Copy_plain_outcome s s' r size dstfile session st st1 Hgz Hnew) as Heq.
      cbv zeta in Heq. rewrite Heq. unfold observe.same_settings; cbn [fst snd]; repeat split; congruence.
Qed.

(** X8: transfers and retries leave the settings of the helper alone.
    However long [MustCopy] and [TryCopy] are followed and however the
    attempts end, the dialer, the flags and the gzip setting of the helper
    they leave are the ones they were given; only the cached connection may
    differ. *)
Theorem retry_loops_keep_the_settings
    (fuel : nat) (s : helper.scpHelperDelegate) (r : io.Reader) (size : Z)
    (dstfile : string) (trys : Z) (sys : Sys) :
  observe.same_settings s (fst (fst (snd (helper.MustCopy fuel s r size dstfile sys))))
  /\ observe.same_settings s
       (fst (fst (snd (helper.TryCopy fuel s r size dstfile trys sys)))).
Proof.
  set (I := fun st : helper.loop_state => observe.same_settings s (fst (fst st))).
  assert (Hatt : forall st, I st -> I (snd (helper.Copy_attempt size dstfile st))).
  { intros [[s0 r0] sys0] H0. unfold I, helper.Copy_attempt in *. cbn [fst] in H0.
    pose proof (Copy_keeps_settings s0 r0 size dstfile sys0) as Hk.
    destruct (helper.Copy s0 r0 size dstfile sys0) as [[[e s1] r1] sys1].
    cbn [fst snd] in *. unfold observe.same_settings in *.
    destruct H0 as (A & B & C), Hk as (A' & B' & C'). repeat split; congruence. }
  assert (Hsl : forall d st, I st -> I (helper.Sleep d st)).
  { intros d [[s0 r0] sys0] H0. exact H0. }
  assert (H0 : I (s, r, sys)) by (unfold I, observe.same_settings; auto).
  split.
  - exact (MustCopy_loop_keeps _ _ _ I Hatt Hsl fuel 0 (s, r, sys) H0).
  - exact (TryCopy_loop_keeps _ _ _ I Hatt Hsl fuel trys 0 None (s, r, sys) H0).
Qed.

(** X18: the helper's [CopyPath] names the file after the destination and
    sends mode 0777: with gzip off, a file that opens is sent under the base
    name of [dstfile], with the size [Stat] reports and its contents, into the
    directory of [dstfile]; neither the name nor the mode of the source
    matters. *)
Theorem helper_CopyPath_sends_destination_name
    (s s' : helper.scpHelperDelegate) (srcfile dstfile : string) (st st1 : Sys)
    (fd : File) (info : FileInfo) (session : Session) (w1 w2 : World) :
  os_Open srcfile (world st) = (inr fd, w1) ->
  File_Stat fd w1 = (inr info, w2) ->
  helper.gzip s = false ->
  helper.newSession s (mkSys w2 (trace st ++ [EvOpen srcfile])) = (inr session, s', st1) ->
  Session_stdin_room session (world st1) = None ->
  trace (snd (helper.CopyPath s srcfile dstfile st))
  = trace st1
    ++ [EvRun session ("scp " ++ helper.flags s ++ " -t " ++ filepath_Dir dstfile)%string
          (bytes_of (scp.control_line os_ModePerm (Size info) (filepath.Base dstfile))
           ++ io.contents_of (File_Reader fd) ++ [x00]);
        EvSessionClose session;
        EvSessionClose session].
Proof.
  intros Hopen Hstat Hgz Hnew Hroom.
  unfold helper.CopyPath, helper.openFile. run_monad.
  rewrite Hopen. cbn [fst snd world trace]. rewrite Hstat.
  pose proof (Copy_plain_outcome s s' (File_Reader fd) (Size info) dstfile session _ st1
                Hgz Hnew) as Heq.
  cbv zeta in Heq. rewrite Heq. cbn [snd trace].
  unfold observe.fed. rewrite Hroom. reflexivity.
Qed.

End TransferFacts.

(** ** [Dial] and the package-level [CopyPath] *)

Section DialAndPathFacts.

Context {P : Platform}.

Ltac run_monad := unfold bind, call, call_, exec, ret in *.


Lemma land_ModePerm (mode : Z) : 0 <= Z.land mode os_ModePerm <= 511.
Proof.
  unfold os_ModePerm.
  assert (H : Z.land mode 511 = mode mod 512)
    by (change 511 with (Z.ones 9); now rewrite Z.land_ones by lia).
  rewrite H. pose proof (Z.mod_pos_bound mode 512 ltac:(lia)). lia.
Qed.

(** X16: the package-level [CopyPath] sends the file under the base name of
    the source path, with the permission bits of its mode (the mode cut to
    its low nine bits, so at most 0777) and the size [Stat] reports, to the
    destination taken whole as the directory of [scp -t]; no flags are
    passed. *)
Theorem CopyPath_sends_source_name_and_permission_bits
    (filePath destinationPath : string) (session : Session) (st : Sys)
    (f : File) (info : FileInfo) (w1 w2 : World) :
  os_Open filePath (world st) = (inr f, w1) ->
  File_Stat f w1 = (inr info, w2) ->
  Session_stdin_room session w2 = None ->
  trace (snd (scp.CopyPath filePath destinationPath session st))
  = trace st
    ++ [EvOpen filePath;
        EvRun session ("scp  -t " ++ destinationPath)%string
          (bytes_of (scp.control_line (Z.land (Mode info) os_ModePerm) (Size info)
                       (filepath.Base filePath))
           ++ io.contents_of (File_Reader f) ++ [x00]);
        EvSessionClose session]
  /\ 0 <= Z.land (Mode info) os_ModePerm <= 511.
Proof.
  intros Hopen Hstat Hroom. split; [|apply land_ModePerm].
  unfold scp.CopyPath, scp.Copy. run_monad. rewrite Hopen. cbn [fst snd world trace].
  rewrite Hstat.
  match goal with
  | |- context [scp.copy ?a ?b ?c ?d ?e ?g ?h ?st0] =>
      pose proof (copy_trace a b c d e g h st0 Hroom) as Htr;
      destruct (scp.copy a b c d e g h st0) as [[err rest] st3]
  end.
  cbn [snd trace] in *. rewrite Htr, <- app_assoc. reflexivity.
Qed.

(** X17: when the source cannot be opened or its [Stat] fails, the
    package-level [CopyPath] returns the error and leaves the session as it
    was: no command is run on it and, unlike on every path through [copy],
    it is not closed. *)
Theorem CopyPath_early_error_leaves_the_session_open
    (filePath destinationPath : string) (session : Session) (st : Sys) (e : error) :
  fst (os_Open filePath (world st)) = inl e
  \/ (exists f w, os_Open filePath (world st) = (inr f, w)
                  /\ fst (File_Stat f w) = inl e) ->
  fst (scp.CopyPath filePath destinationPath session st) = Some e
  /\ trace (snd (scp.CopyPath filePath destinationPath session st))
     = trace st ++ [EvOpen filePath].
Proof.
  intros H. unfold scp.CopyPath. run_monad.
  destruct H as [H | (f & w & Ho & Hs)].
  - destruct (os_Open filePath (world st)) as [[e'|f] w]; simpl in H; [|discriminate].
    inversion H; subst. split; reflexivity.
  - rewrite Ho. cbn [fst snd world trace].
    destruct (File_Stat f w) as [[e'|info] w']; simpl in Hs; [|discriminate].
    inversion Hs; subst. split; reflexivity.
Qed.

End DialAndPathFacts.

(** ** More runs on the scripted platform *)

Module more_runs.

Import scripted fixtures.

(** X1 where connection 1 gives no session and connection 2 does. *)
Lemma newSession_recovers_run :
  fst (helper.newSession cached (start [inr 2%nat] [inl refused; inr 7%nat] [] []))
  = (inr 7%nat, helper.with_client cached (Some 2%nat)).
Proof.
  rewrite (newSession_recovers_with_one_redial
             (P := platform) cached (start [inr 2%nat] [inl refused; inr 7%nat] [] [])
             _ _ 1%nat 2%nat refused 7%nat _ _ eq_refl eq_refl eq_refl eq_refl).
  reflexivity.
Defined.

(** X2 where nothing answers the dial. *)
Lemma newSession_refused_run :
  fst (helper.newSession (helper.NewHelper root) (start [] [] [] []))
  = (inl refused, helper.NewHelper root).
Proof.
  destruct (newSession_failed_dial_leaves_no_client
              (P := platform) (helper.NewHelper root) (start [] [] [] []) (start [] [] [] [])
              _ 0%nat refused refused (mkWorld [] [] [] [] [])
              (or_introl (conj eq_refl eq_refl))) as (Heq & _).
  rewrite Heq. reflexivity.
Defined.


(** X5 with three refusals allowed and every attempt refused. *)
Lemma TryCopy_returns_run :
  (helper.attempts (helper.events (helper.TryCopy_loop refuse no_sleep 5 3 0 None tt)) <= 4)%nat.
Proof.
  destruct (TryCopy_returns_within_trys_plus_one unit refuse no_sleep 3 5 tt
              ltac:(lia) ltac:(simpl; lia)) as (Hbound & _).
  exact Hbound.
Defined.

(** X6 on the error of that run. *)
Lemma TryCopy_error_run : helper.Error (ErrTimes None 4) = None.
Proof.
  exact (TryCopy_error_cannot_be_printed unit refuse no_sleep 5 3 tt (ErrTimes None 4)
           eq_refl).
Defined.

(** X7: three retries sleep 1 + 2 + 3 seconds. *)
Lemma TryCopy_sleeps_run :
  2 * observe.total_slept
        (helper.events (helper.TryCopy_loop refuse no_sleep 5 3 0 None tt))
  = 3 * (3 + 1) * time_Second.
Proof.
  destruct (TryCopy_sleeps_at_most_triangular unit refuse no_sleep 3 5 tt
              ltac:(lia) ltac:(reflexivity)) as (_ & Hall).
  apply Hall.
  - intros st. discriminate.
  - simpl. lia.
Defined.

(** X9 on two renderings of the same triple. *)
Lemma control_line_injective_run : 420 = 420 /\ 3 = 3 /\ "a b" = "a b".
Proof.
  apply (control_line_injective 420 420 3 3 "a b" "a b"); try lia. reflexivity.
Defined.

(** X10 on a source that fails after two bytes and announces 99: the
    command's own error is what comes back. *)
Lemma copy_failing_source_run :
  fst (fst (scp.copy 99 420 "f" failing_source "/tmp" 7%nat ""
              (start [] [] [Some rejected] [])))
  = Some rejected
  /\ commands_run
       (trace (snd (scp.copy 99 420 "f" failing_source "/tmp" 7%nat ""
                      (start [] [] [Some rejected] []))))
     = [("scp  -t /tmp", bytes_of ("C0644 99 f" ++ scp.LF)%string ++ [x61; x62] ++ [x00])].
Proof.
  destruct (copy_returns_the_command_result
              (P := platform) 99 420 "f" failing_source "/tmp" 7%nat ""
              (start [] [] [Some rejected] []) eq_refl) as (Hres & Htr & _).
  split; [exact Hres|]. rewrite Htr. reflexivity.
Defined.

(** X11 on a transfer that goes through. *)
Lemma Copy_closes_run :
  exists evs,
    trace (snd (helper.Copy (helper.NewHelper root) abc_source 3 "/tmp/abc"
                  (start [inr 1%nat] [inr 7%nat] [] [])))
    = trace (snd (helper.newSession (helper.NewHelper root)
                    (start [inr 1%nat] [inr 7%nat] [] [])))
      ++ evs ++ [EvSessionClose 7%nat].
Proof.
  destruct (Copy_always_closes_its_session
              (P := platform) (helper.NewHelper root)
              (@helper.with_client platform (helper.NewHelper root) (Some 1%nat))
              abc_source 3 "/tmp/abc"
              (start [inr 1%nat] [inr 7%nat] [] [])
              (snd (helper.newSession (helper.NewHelper root)
                      (start [inr 1%nat] [inr 7%nat] [] [])))) as (Hclose & _).
  destruct (Hclose 7%nat eq_refl) as (evs & Htr & _).
  exists evs. exact Htr.
Defined.

(** X12 with gzip on: the read error comes back. *)
Lemma Copy_gzip_failing_source_run :
  fst (fst (fst (helper.Copy (helper.SetGzipEnable (helper.NewHelper root) true)
                   failing_source 2 "/tmp/f" (start [inr 1%nat] [inr 7%nat] [] []))))
  = Some disk_error.
Proof.
  destruct (Copy_read_error_reported_only_with_gzip
              (P := platform) (helper.SetGzipEnable (helper.NewHelper root) true) _
              failing_source 2 "/tmp/f" 7%nat (start [inr 1%nat] [inr 7%nat] [] []) _
              eq_refl eq_refl) as (Hgz & _).
  destruct (Hgz eq_refl) as (Hres & _). exact Hres.
Defined.

(** The same source with gzip off: [Copy] returns [nil] and the two bytes
    went out as the file. *)
Example Copy_plain_failing_source :
  let done := helper.Copy (helper.NewHelper root) failing_source 2 "/tmp/f"
                (start [inr 1%nat] [inr 7%nat] [] []) in
  fst (fst (fst done)) = None
  /\ commands_run (trace (snd done))
     = [("scp  -t /tmp", bytes_of ("C0777 2 f" ++ scp.LF)%string ++ [x61; x62] ++ [x00])].
Proof. split; reflexivity. Qed.

(** X13 on the three-byte source. *)
Lemma Copy_again_run :
  snd (fst (helper.Copy (helper.NewHelper root) abc_source 3 "/tmp/abc"
              (start [inr 1%nat] [inr 7%nat; inr 8%nat] [] [])))
  = [].
Proof.
  destruct (Copy_again_sends_an_empty_body
              (P := platform) (helper.NewHelper root) _ abc_source 3 "/tmp/abc" 7%nat
              (start [inr 1%nat] [inr 7%nat; inr 8%nat] [] []) _
              eq_refl eq_refl eq_refl eq_refl) as (Hrest & _).
  exact Hrest.
Defined.

(** Two attempts of [TryCopy] on that source when the first command fails:
    the second command gets the control line and the zero byte only. *)
Example TryCopy_second_attempt_sends_nothing :
  commands_run
    (trace (snd (snd (helper.TryCopy 9 (helper.NewHelper root) abc_source 3 "/tmp/abc" 3
                        (start [inr 1%nat] [inr 7%nat; inr 8%nat] [Some rejected] [])))))
  = [("scp  -t /tmp", bytes_of ("C0777 3 abc" ++ scp.LF)%string ++ [x61; x62; x63] ++ [x00]);
     ("scp  -t /tmp", bytes_of ("C0777 3 abc" ++ scp.LF)%string ++ [x00])].
Proof. reflexivity. Qed.

(** X14 on the three-byte source, with the codec that stores. *)
Lemma Copy_gzip_envelope_run :
  commands_run
    (trace (snd (helper.Copy (helper.SetGzipEnable (helper.NewHelper root) true)
                   abc_source 99 "/tmp/abc" (start [inr 1%nat] [inr 7%nat] [] []))))
  = [("scp  -t /tmp", bytes_of ("C0777 3 abc.gz" ++ scp.LF)%string ++ [x61; x62; x63] ++ [x00])].
Proof.
  rewrite (Copy_gzip_envelope
             (P := platform) (helper.SetGzipEnable (helper.NewHelper root) true) _
             abc_source 99 "/tmp/abc" 7%nat (start [inr 1%nat] [inr 7%nat] [] []) _
             eq_refl eq_refl eq_refl eq_refl).
  reflexivity.
Defined.

(** X18 on the setuid file sent to [/opt/bin/t]. *)
Lemma helper_CopyPath_run :
  commands_run
    (trace (snd (helper.CopyPath (helper.NewHelper root) "/src/tool" "/opt/bin/t"
                   (start [inr 1%nat] [inr 7%nat] [] setuid_file))))
  = [("scp  -t /opt/bin", bytes_of ("C0777 3 t" ++ scp.LF)%string ++ [x61; x62; x63] ++ [x00])].
Proof.
  rewrite (helper_CopyPath_sends_destination_name
             (P := platform) (helper.NewHelper root) _ "/src/tool" "/opt/bin/t"
             (start [inr 1%nat] [inr 7%nat] [] setuid_file) _ _ _ 7%nat _ _
             eq_refl eq_refl eq_refl eq_refl eq_refl).
  reflexivity.
Defined.


Example Dial_keyed_offers_the_key :
  trace (snd (helper.Dial keyed (start [inr 1%nat] [] [] key_file)))
  = [EvDial "tcp" "10.0.0.1:22" (helper.Dial_config keyed (PublicKeys [x6b; x65; x79]))].
Proof. reflexivity. Qed.

(** X16 on a setuid file: the mode sent is 0750. *)
Lemma CopyPath_setuid_file_run :
  commands_run
    (trace (snd (scp.CopyPath "/src/tool" "/opt/bin" 7%nat (start [] [] [] setuid_file))))
  = [("scp  -t /opt/bin", bytes_of ("C0750 3 tool" ++ scp.LF)%string ++ [x61; x62; x63] ++ [x00])].
Proof.
  destruct (CopyPath_sends_source_name_and_permission_bits
              (P := platform) "/src/tool" "/opt/bin" 7%nat (start [] [] [] setuid_file)
              _ _ _ _ eq_refl eq_refl eq_refl) as (Htr & _).
  rewrite Htr. reflexivity.
Defined.

(** X17 on a path that is not there. *)
Lemma CopyPath_missing_file_run :
  fst (scp.CopyPath "/src/none" "/opt/bin" 7%nat (start [] [] [] setuid_file)) = Some no_file
  /\ trace (snd (scp.CopyPath "/src/none" "/opt/bin" 7%nat (start [] [] [] setuid_file)))
     = [EvOpen "/src/none"].
Proof.
  apply (CopyPath_early_error_leaves_the_session_open
           (P := platform) "/src/none" "/opt/bin" 7%nat (start [] [] [] setuid_file) no_file).
  left. reflexivity.
Defined.

End more_runs.

(** ** [MustCopy] and the attempts it makes *)

Section MustCopyAttempts.

Variable St : Type.
Variable attempt : St -> option error * St.
Variable Sleep : Z -> St -> St.

Lemma results_pause_attempted (d : option Z) (st : St) (r : option error)
    (evs : list helper.retry_event) :
  observe.results (fst (helper.pause Sleep d st) ++ helper.Attempted r :: evs)
  = r :: observe.results evs.
Proof.
  destruct d; reflexivity.
Qed.

Lemma MustCopy_returns_iff_attempt_succeeds (fuel : nat) :
  forall retryTimes st,
    helper.result (helper.MustCopy_loop attempt Sleep fuel retryTimes st) = helper.Returned tt
    <-> exists k, (k < fuel)%nat
                  /\ fst (attempt (observe.MustCopy_state attempt Sleep k retryTimes st)) = None.
Proof.
  induction fuel as [|fuel IH]; intros retryTimes st.
  - unfold helper.result. simpl. split; [discriminate | intros (k & Hk & _); lia].
  - rewrite MustCopy_loop_S. cbv zeta.
    set (st1 := snd (helper.pause Sleep (helper.MustCopy_pause retryTimes) st)).
    destruct (attempt st1) as [[e|] st2] eqn:Ha.
    + specialize (IH (wrap64 (retryTimes + 1)) st2).
      destruct (helper.MustCopy_loop attempt Sleep fuel (wrap64 (retryTimes + 1)) st2)
        as [[evs res] st3].
      unfold helper.result in *. cbn [fst snd] in *. rewrite IH. split.
      * intros (k & Hk & Hok). exists (S k). split; [lia|].
        cbn [observe.MustCopy_state]. fold st1. now rewrite Ha.
      * intros (k & Hk & Hok). destruct k as [|k].
        -- cbn [observe.MustCopy_state] in Hok. fold st1 in Hok. rewrite Ha in Hok.
           discriminate.
        -- exists k. split; [lia|].
           cbn [observe.MustCopy_state] in Hok. fold st1 in Hok. now rewrite Ha in Hok.
    + unfold helper.result. cbn [fst snd]. split; [|reflexivity].
      intros _. exists O. split; [lia|].
      cbn [observe.MustCopy_state]. fold st1. now rewrite Ha.
Qed.

Lemma MustCopy_log_is_the_attempts (fuel : nat) :
  forall retryTimes st,
    observe.results (helper.events (helper.MustCopy_loop attempt Sleep fuel retryTimes st))
    = map (fun k => fst (attempt (observe.MustCopy_state attempt Sleep k retryTimes st)))
        (seq 0 (helper.attempts
                  (helper.events (helper.MustCopy_loop attempt Sleep fuel retryTimes st)))).
Proof.
  induction fuel as [|fuel IH]; intros retryTimes st.
  - reflexivity.
  - rewrite MustCopy_loop_S. cbv zeta.
    destruct (pause_quiet St Sleep (helper.MustCopy_pause retryTimes) st) as (Hq & _).
    set (st1 := snd (helper.pause Sleep (helper.MustCopy_pause retryTimes) st)).
    destruct (attempt st1) as [[e|] st2] eqn:Ha.
    + specialize (IH (wrap64 (retryTimes + 1)) st2).
      destruct (helper.MustCopy_loop attempt Sleep fuel (wrap64 (retryTimes + 1)) st2)
        as [[evs res] st3].
      unfold helper.events in *. cbn [fst snd] in *.
      rewrite results_pause_attempted, attempts_app_attempted by exact Hq.
      cbn [seq map]. f_equal.
      * cbn [observe.MustCopy_state]. fold st1. now rewrite Ha.
      * rewrite IH, <- seq_shift, map_map. apply map_ext. intros k.
        cbn [observe.MustCopy_state]. fold st1. now rewrite Ha.
    + unfold helper.events. cbn [fst snd].
      rewrite results_pause_attempted, attempts_app_attempted by exact Hq.
      cbn [seq map observe.results helper.attempts]. f_equal.
      cbn [observe.MustCopy_state]. fold st1. now rewrite Ha.
Qed.

Lemma MustCopy_not_returned (fuel : nat) (retryTimes : Z) (st : St) :
  helper.result (helper.MustCopy_loop attempt Sleep fuel retryTimes st) <> helper.Returned tt ->
  helper.result (helper.MustCopy_loop attempt Sleep fuel retryTimes st) = helper.StillRunning.
Proof.
  destruct (helper.result _) as [[]|]; [intros H; now elim H | reflexivity].
Qed.

Lemma MustCopy_never_returns_while_failing (retryTimes : Z) (st : St) :
  (forall k, fst (attempt (observe.MustCopy_state attempt Sleep k retryTimes st)) <> None) ->
  forall fuel,
    helper.result (helper.MustCopy_loop attempt Sleep fuel retryTimes st) = helper.StillRunning
    /\ helper.attempts
         (helper.events (helper.MustCopy_loop attempt Sleep fuel retryTimes st)) = fuel.
Proof.
  intros Hfail fuel.
  assert (Hrun : helper.result (helper.MustCopy_loop attempt Sleep fuel retryTimes st)
                 = helper.StillRunning).
  { apply MustCopy_not_returned. intros Hret.
    apply MustCopy_returns_iff_attempt_succeeds in Hret.
    destruct Hret as (k & _ & Hok). now apply (Hfail k). }
  split; [exact Hrun|]. now apply MustCopy_running_keeps_trying.
Qed.

End MustCopyAttempts.

Section MustCopyOfTheHelper.

Context {P : Platform}.

Lemma Copy_attempt_result (size : Z) (dstfile : string) (st : helper.loop_state) :
  fst (helper.Copy_attempt size dstfile st)
  = fst (fst (fst (helper.Copy (fst (fst st)) (snd (fst st)) size dstfile (snd st)))).
Proof.
  destruct st as [[s r] sys]. unfold helper.Copy_attempt. cbn [fst snd].
  now destruct (helper.Copy s r size dstfile sys) as [[[e s'] r'] sys'].
Qed.

(** C7: [MustCopy] returns exactly when an attempt of [Copy] succeeds.
    The attempts are calls of [Copy] on the helper, the reader and the world
    as the sleeps and the attempts before left them.  Followed for [fuel]
    iterations, [MustCopy] has returned if and only if one of the first
    [fuel] attempts succeeds, so it returns at all if and only if some
    attempt succeeds; what it logged is what those calls of [Copy] returned;
    while it has not returned it has made one attempt per iteration, and
    once it has returned more iterations change nothing.  If no attempt
    succeeds it has not returned after any number of iterations; and for any
    attempt function that always fails the loop is still running after every
    number of iterations, with as many attempts made, all of them calls of
    that function. *)
Theorem MustCopy_returns_only_on_success
    (s : helper.scpHelperDelegate) (r : io.Reader) (size : Z) (dstfile : string)
    (sys : Sys) :
  let state := fun k =>
    observe.MustCopy_state (helper.Copy_attempt size dstfile) helper.Sleep k 0 (s, r, sys) in
  let Copy_at := fun k =>
    fst (fst (fst (helper.Copy (fst (fst (state k))) (snd (fst (state k))) size dstfile
                     (snd (state k))))) in
  (forall fuel,
     helper.result (helper.MustCopy fuel s r size dstfile sys) = helper.Returned tt
     <-> exists k, (k < fuel)%nat /\ Copy_at k = None)
  /\ ((exists fuel,
         helper.result (helper.MustCopy fuel s r size dstfile sys) = helper.Returned tt)
      <-> exists k, Copy_at k = None)
  /\ (forall fuel,
        observe.results (helper.events (helper.MustCopy fuel s r size dstfile sys))
        = map Copy_at
            (seq 0 (helper.attempts
                      (helper.events (helper.MustCopy fuel s r size dstfile sys)))))
  /\ (forall fuel,
        helper.result (helper.MustCopy fuel s r size dstfile sys) = helper.StillRunning ->
        helper.attempts (helper.events (helper.MustCopy fuel s r size dstfile sys)) = fuel)
  /\ (forall fuel fuel',
        (fuel <= fuel')%nat ->
        helper.result (helper.MustCopy fuel s r size dstfile sys) = helper.Returned tt ->
        helper.MustCopy fuel' s r size dstfile sys = helper.MustCopy fuel s r size dstfile sys)
  /\ ((forall k, Copy_at k <> None) ->
      forall fuel,
        helper.result (helper.MustCopy fuel s r size dstfile sys) = helper.StillRunning
        /\ helper.attempts (helper.events (helper.MustCopy fuel s r size dstfile sys)) = fuel)
  /\ (forall (St : Type) (attempt : St -> option error * St) (Sleep : Z -> St -> St),
        helper.always_fails attempt ->
        forall fuel st,
          helper.result (helper.MustCopy_loop attempt Sleep fuel 0 st) = helper.StillRunning
          /\ helper.attempts (helper.events (helper.MustCopy_loop attempt Sleep fuel 0 st))
             = fuel
          /\ observe.results (helper.events (helper.MustCopy_loop attempt Sleep fuel 0 st))
             = map (fun k => fst (attempt (observe.MustCopy_state attempt Sleep k 0 st)))
                 (seq 0 fuel)).
Proof.
  cbv zeta. unfold helper.MustCopy.
  assert (Hiff : forall fuel,
            helper.result (helper.MustCopy_loop (helper.Copy_attempt size dstfile)
                             helper.Sleep fuel 0 (s, r, sys)) = helper.Returned tt
            <-> exists k, (k < fuel)%nat
                 /\ fst (fst (fst (helper.Copy
                      (fst (fst (observe.MustCopy_state (helper.Copy_attempt size dstfile)
                                   helper.Sleep k 0 (s, r, sys))))
                      (snd (fst (observe.MustCopy_state (helper.Copy_attempt size dstfile)
                                   helper.Sleep k 0 (s, r, sys))))
                      size dstfile
                      (snd (observe.MustCopy_state (helper.Copy_attempt size dstfile)
                              helper.Sleep k 0 (s, r, sys)))))) = None).
  { intros fuel. rewrite MustCopy_returns_iff_attempt_succeeds.
    split; intros (k & Hk & Hok); exists k; split; auto;
      [rewrite <- Copy_attempt_result | rewrite Copy_attempt_result]; exact Hok. }
  split; [exact Hiff|]. split; [|split; [|split; [|split; [|split]]]].
  - split.
    + intros (fuel & Hret). apply Hiff in Hret. destruct Hret as (k & _ & Hok). now exists k.
    + intros (k & Hok). exists (S k). apply Hiff. exists k. split; [lia | exact Hok].
  - intros fuel. rewrite MustCopy_log_is_the_attempts. apply map_ext.
    intros k. apply Copy_attempt_result.
  - intros fuel. apply MustCopy_running_keeps_trying.
  - intros fuel fuel'. apply MustCopy_return_is_stable.
  - intros Hfail fuel. apply MustCopy_never_returns_while_failing.
    intros k. rewrite Copy_attempt_result. apply Hfail.
  - intros St attempt Sleep Hfail fuel st.
    destruct (MustCopy_always_failing St attempt Sleep fuel Hfail 0 st) as (Hres & Hatt).
    repeat split; auto.
    rewrite MustCopy_log_is_the_attempts, Hatt. reflexivity.
Qed.

End MustCopyOfTheHelper.

(** ** [MustCopy] on the scripted platform *)

Module last_runs.

Import scripted.

(** C7 through the helper: two dials are refused, the third attempt of
    [Copy] goes through, and [MustCopy] has returned; and with an attempt
    that is always refused it is still running. *)
Lemma MustCopy_returns_at_third_attempt :
  helper.result (helper.MustCopy 9 (helper.NewHelper root) [] 0 "/tmp/f"
                   (start [inl refused; inl refused; inr 1%nat] [inr 7%nat] [] []))
  = helper.Returned tt
  /\ helper.result (helper.MustCopy_loop refuse no_sleep 7 0 tt) = helper.StillRunning
  /\ helper.attempts (helper.events (helper.MustCopy_loop refuse no_sleep 7 0 tt)) = 7%nat.
Proof.
  destruct (MustCopy_returns_only_on_success
              (P := platform) (helper.NewHelper root) [] 0 "/tmp/f"
              (start [inl refused; inl refused; inr 1%nat] [inr 7%nat] [] []))
    as (Hiff & _ & _ & _ & _ & _ & Hnever).
  split.
  - apply Hiff. exists 2%nat. split; [lia | reflexivity].
  - destruct (Hnever unit refuse no_sleep (fun st => ltac:(discriminate)) 7%nat tt)
      as (Hres & Hatt & _).
    split; [exact Hres | exact Hatt].
Defined.

End last_runs.
